(** * andsource: the Android sources update-site generator (generate.py)

    A shallow embedding of the property-file parser, the source catalog,
    the archive packer, the template preprocessor and the plugin assembler,
    with the properties that the design document states about them.

    Conventions of the embedding.
    - Python [str] is [string] (text restricted to the ASCII range).
    - A text file is the list of physical lines that [readlines()] returns.
    - A Python exception is a value of [exn]; a function that can raise
      returns a [result].
    - The property dictionary is a [gmap string string]; the catalog, whose
      iteration order is the insertion order, is an association list. *)

From Stdlib Require Import ZArith Ascii String List Lia Bool Sorting.Sorted.
From Stdlib Require Import Numbers.DecimalString.
From stdpp Require Import base option list strings gmap sorting.

Import ListNotations.
Open Scope string_scope.
Open Scope Z_scope.

(** ** Exceptions and results *)

Inductive exn : Type :=
| IOError (path : string)        (* open() on a missing or unreadable file *)
| Exception (msg : string)       (* raise Exception(msg) *)
| TypeError                      (* str + int *)
| ValueError (msg : string)      (* str.index / ThreadPoolExecutor *)
| KeyError (key : Z).            (* dict[key] on an absent key *)

Inductive result (A : Type) : Type :=
| Ok (a : A)
| Raise (e : exn).

Arguments Ok {A} a.
Arguments Raise {A} e.

Definition bind {A B : Type} (r : result A) (k : A -> result B) : result B :=
  match r with
  | Ok a => k a
  | Raise e => Raise e
  end.

Notation "'let*' x ':=' r 'in' k" := (bind r (fun x => k))
  (at level 10, x pattern, r at level 100, k at level 200).

(** ** Strings the way Python treats them *)

Module PyStr.

(** [c in s] for a one-character [c]. *)
Fixpoint char_in (c : ascii) (s : string) : bool :=
  match s with
  | EmptyString => false
  | String d s' => Ascii.eqb c d || char_in c s'
  end.

(** [str.isspace] on the ASCII range: TAB, LF, VT, FF, CR, FS, GS, RS, US
    and the space. *)
Definition isspace (c : ascii) : bool :=
  let n := nat_of_ascii c in
  ((9 <=? n) && (n <=? 13) || (28 <=? n) && (n <=? 32))%nat.

Fixpoint lstrip (s : string) : string :=
  match s with
  | EmptyString => EmptyString
  | String c s' => if isspace c then lstrip s' else s
  end.

Fixpoint rstrip (s : string) : string :=
  match s with
  | EmptyString => EmptyString
  | String c s' =>
      match rstrip s' with
      | EmptyString => if isspace c then EmptyString else String c EmptyString
      | r => String c r
      end
  end.

Definition strip (s : string) : string := lstrip (rstrip s).

Definition startswith (pre s : string) : bool := String.prefix pre s.

Fixpoint endswith (suf s : string) : bool :=
  String.eqb s suf ||
  match s with
  | EmptyString => false
  | String _ s' => endswith suf s'
  end.

(** The truth value of a string: [not s] is [is_empty s]. *)
Definition is_empty (s : string) : bool :=
  match s with
  | EmptyString => true
  | _ => false
  end.

(** [str(n)] for a non-negative integer. *)
Definition str_of_N (n : N) : string := NilZero.string_of_uint (N.to_uint n).

(** [str(z)] for an integer. *)
Definition str_of_Z (z : Z) : string := NilZero.string_of_int (Z.to_int z).

Definition digit_value (c : ascii) : option N :=
  let n := N_of_ascii c in
  if ((48 <=? n) && (n <=? 57))%N then Some (n - 48)%N
  else if ((65 <=? n) && (n <=? 70))%N then Some (n - 55)%N
  else None.

(** [int(s, 16)] on a string of digits [0-9A-F]; a character outside that
    range does not occur where the program calls it and counts as 0. *)
Definition int16 (s : string) : N :=
  fold_left (fun acc c => (16 * acc + default 0 (digit_value c))%N)
            (list_ascii_of_string s) 0%N.

(** [s.isdigit()] on the ASCII range (false on the empty string). *)
Definition isdigit_char (c : ascii) : bool :=
  let n := nat_of_ascii c in ((48 <=? n) && (n <=? 57))%nat.

Definition isdigit (s : string) : bool :=
  negb (is_empty s) && forallb isdigit_char (list_ascii_of_string s).

(** [int(s)] on a string for which [isdigit] holds. *)
Definition int10 (s : string) : Z :=
  fold_left (fun acc c => 10 * acc + (Z.of_nat (nat_of_ascii c) - 48))
            (list_ascii_of_string s) 0.

(** [os.path.join(a, b)] of posixpath, for two components. *)
Definition path_join (a b : string) : string :=
  if startswith "/" b then b
  else if is_empty a || endswith "/" a then a ++ b
  else a ++ "/" ++ b.

End PyStr.

Import PyStr.

(** ** split_property_line *)

(** The local variables of the scanning loop. *)
Record scan : Type := mkScan {
  key : string;
  current_line : string;
  in_key : bool;
  escaped : bool;
  hex_code : bool;
  hex_string : string
}.

Definition scan_init : scan :=
  {| key := ""; current_line := ""; in_key := true; escaped := false;
     hex_code := false; hex_string := "" |}.

Definition char (c : ascii) : string := String c EmptyString.

Definition backslash : ascii := "\"%char.

(** Lines 88-101: the part of the loop body that every character reaches
    unless an earlier branch ran [continue] or [return None]. *)
Definition scan_plain (st : scan) (c : ascii) : option scan :=
  if Ascii.eqb c backslash then
    Some {| key := key st; current_line := current_line st;
            in_key := in_key st; escaped := true;
            hex_code := hex_code st; hex_string := hex_string st |}
  else if char_in c ":=" then
    if negb (in_key st) then None
    else Some {| key := strip (current_line st); current_line := "";
                 in_key := in_key st; escaped := escaped st;
                 hex_code := hex_code st; hex_string := hex_string st |}
  else
    if escaped st then
      Some {| key := key st;
              current_line := current_line st ++ char backslash ++ char c;
              in_key := in_key st; escaped := false;
              hex_code := hex_code st; hex_string := hex_string st |}
    else
      Some {| key := key st; current_line := current_line st ++ char c;
              in_key := in_key st; escaped := escaped st;
              hex_code := hex_code st; hex_string := hex_string st |}.

(** One iteration of [for character in line] (lines 67-101); [None] is
    [return None]. *)
Definition scan_char (st : scan) (c : ascii) : option scan :=
  if hex_code st then
    if (String.length (hex_string st) =? 4)%nat then
      scan_plain
        {| key := key st;
           current_line := current_line st ++ str_of_N (int16 (hex_string st));
           in_key := in_key st; escaped := escaped st;
           hex_code := false; hex_string := "" |} c
    else
      if negb (char_in c "0123456789ABCDEF") then None
      else Some {| key := key st; current_line := current_line st;
                   in_key := in_key st; escaped := escaped st;
                   hex_code := hex_code st;
                   hex_string := hex_string st ++ char c |}
  else if escaped st then
    if char_in c ":=" then
      Some {| key := key st; current_line := current_line st ++ char c;
              in_key := in_key st; escaped := false;
              hex_code := hex_code st; hex_string := hex_string st |}
    else if Ascii.eqb c "u" then
      Some {| key := key st; current_line := current_line st;
              in_key := in_key st; escaped := false;
              hex_code := true; hex_string := "" |}
    else scan_plain st c
  else scan_plain st c.

Fixpoint scan_line (st : scan) (line : string) : option scan :=
  match line with
  | EmptyString => Some st
  | String c rest =>
      match scan_char st c with
      | None => None
      | Some st' => scan_line st' rest
      end
  end.

Definition split_property_line (line : string) : option (string * string) :=
  match scan_line scan_init line with
  | None => None
  | Some st =>
      if is_empty (key st) then None
      else Some (key st, strip (current_line st))
  end.

(** ** The file system as the program observes it *)

(** A directory tree as [os.walk] finds it: the entries of a directory are
    in the order in which the operating system lists them; a file carries
    its content, or [None] when it cannot be read. *)
#[local] Unset Elimination Schemes.
Inductive node : Type :=
| File (data : option (list string))
| Dir (entries : list (string * node)).
#[local] Set Elimination Schemes.

(** The induction principle of [node]: a property of the entries of a
    directory may be assumed for the directory. *)
Fixpoint node_ind' (P : node -> Prop)
    (Hfile : forall data, P (File data))
    (Hdir : forall entries, Forall (fun e => P (snd e)) entries ->
                            P (Dir entries))
    (top : node) : P top :=
  match top with
  | File data => Hfile data
  | Dir entries =>
      Hdir entries
        ((fix all (es : list (string * node))
            : Forall (fun e => P (snd e)) es :=
            match es with
            | [] => @List.Forall_nil _ _
            | e :: es' =>
                @List.Forall_cons _ _ e es'
                  (match e as e0 return P (snd e0) with
                   | (_, child) => node_ind' P Hfile Hdir child
                   end)
                  (all es')
            end) entries)
  end.

Record filesystem : Type := mkFs {
  fs_exists : string -> bool;                 (* os.path.exists(path) *)
  fs_listdir : string -> list string;         (* os.listdir(path) *)
  fs_open : string -> option (list string);   (* open(path).readlines();
                                                 None when open() raises *)
  fs_tree : string -> option node             (* the tree that os.walk(path)
                                                 visits; None when absent *)
}.

(** ** parse_property_file *)

(** The local variables of the reading loop. *)
Record reader : Type := mkReader {
  values : gmap string string;
  is_continuing : bool;
  line_buffer : string
}.

Definition reader_init : reader :=
  {| values := ∅; is_continuing := false; line_buffer := "" |}.

(** Lines 130-139: a complete logical line is handed to
    [split_property_line] and its pair is stored. *)
Definition deliver (st : reader) (line : string) : result reader :=
  match split_property_line line with
  | None => Raise (Exception ("Invalid property found in" ++ line))
  | Some (key, value) =>
      Ok {| values := <[key := value]> (values st);
            is_continuing := false; line_buffer := "" |}
  end.

(** One iteration of [for source_line in handle.readlines()]
    (lines 117-139). *)
Definition read_line (st : reader) (source_line : string) : result reader :=
  let line := strip source_line in
  if is_empty line then Ok st
  else if negb (is_continuing st)
          && (startswith "#" line || startswith "!" line) then Ok st
  else if endswith "\" line then
    Ok {| values := values st; is_continuing := true;
          line_buffer := line_buffer st ++ " " ++ line |}
  else deliver st (line_buffer st ++ " " ++ line).

Fixpoint read_lines (st : reader) (lines : list string) : result reader :=
  match lines with
  | [] => Ok st
  | source_line :: rest =>
      let* st' := read_line st source_line in read_lines st' rest
  end.

(** The body of [with open(name, 'r') as handle] and the [return]. *)
Definition parse_property_lines (lines : list string)
  : result (gmap string string) :=
  let* st := read_lines reader_init lines in Ok (values st).

Definition parse_property_file (fs : filesystem) (name : string)
  : result (gmap string string) :=
  match fs_open fs name with
  | None => Raise (IOError name)
  | Some lines => parse_property_lines lines
  end.

(** ** collect_android_sources *)

(** [api_level in source_directories] *)
Definition has_level (api_level : Z) (source_directories : list (Z * string))
  : bool :=
  existsb (fun e => Z.eqb (fst e) api_level) source_directories.

(** One iteration of [for directory in os.listdir(sources)]
    (lines 153-165).  The message of the duplicate exception is built as
    ['Duplicated API level: ' + api_level] with [api_level] already an
    [int], so the statement raises [TypeError] before any [Exception]
    exists. *)
Definition collect_directory (fs : filesystem) (sources : string)
    (source_directories : list (Z * string)) (directory : string)
  : result (list (Z * string)) :=
  let source_directory := path_join sources directory in
  let properties_file := path_join source_directory "source.properties" in
  let* properties := parse_property_file fs properties_file in
  match properties !! "AndroidVersion.ApiLevel" with
  | None => Ok source_directories
  | Some api_level =>
      if is_empty api_level || negb (isdigit api_level)
      then Ok source_directories
      else
        let api_level := int10 api_level in
        if has_level api_level source_directories then Raise TypeError
        else Ok (source_directories ++ [(api_level, source_directory)])%list
  end.

Fixpoint collect_directories (fs : filesystem) (sources : string)
    (source_directories : list (Z * string)) (listing : list string)
  : result (list (Z * string)) :=
  match listing with
  | [] => Ok source_directories
  | directory :: rest =>
      let* acc := collect_directory fs sources source_directories directory in
      collect_directories fs sources acc rest
  end.

Definition collect_android_sources (fs : filesystem) (base_directory : string)
  : result (list (Z * string)) :=
  let sources := path_join base_directory "sources" in
  if negb (fs_exists fs sources) then
    Raise (Exception (sources ++ " does not exist!"))
  else collect_directories fs sources [] (fs_listdir fs sources).

(** ** package_sdk_source and repack *)

(** A member of an archive: its name and the content stored under it. *)
Definition member : Type := string * list string.

(** [os.walk(directory)] followed by the two inner loops: every directory
    yields its files in listing order, then its sub-directories are
    walked in listing order.  [rel] is the path of the directory that is
    being visited relative to the top of the walk, so that
    [path_join rel file_name] is
    [os.path.relpath(os.path.join(root, file_name), root_directory)]. *)
Definition files_of (rel : string) (entries : list (string * node))
  : list (string * option (list string)) :=
  flat_map (fun e => match snd e with
                     | File data => [(path_join rel (fst e), data)]
                     | Dir _ => []
                     end) entries.

Fixpoint walk (rel : string) (top : node)
  : list (string * option (list string)) :=
  match top with
  | File _ => []
  | Dir entries =>
      (files_of rel entries ++
       flat_map (fun e => match snd e with
                          | File _ => []
                          | Dir _ => walk (path_join rel (fst e)) (snd e)
                          end) entries)%list
  end.

(** [os.walk(directory)] from the top; an absent directory yields
    nothing. *)
Definition walk_top (fs : filesystem) (directory : string)
  : list (string * option (list string)) :=
  match fs_tree fs directory with
  | Some top => walk "" top
  | None => []
  end.

(** [output.write(source_file, target_file, ...)] for each file in turn;
    reading an unreadable file raises and leaves the members written so
    far. *)
Fixpoint write_members (files : list (string * option (list string)))
    (output : list member) : list member * option exn :=
  match files with
  | [] => (output, None)
  | (target_file, Some data) :: rest =>
      write_members rest (output ++ [(target_file, data)])%list
  | (target_file, None) :: rest => (output, Some (IOError target_file))
  end.

Definition not_properties (f : string * option (list string)) : bool :=
  negb (String.eqb (fst f) "source.properties").

(** The archive written to [target_file] and the exception raised, if
    any. *)
Definition package_sdk_source (fs : filesystem) (directory : string)
  : list member * option exn :=
  write_members (filter not_properties (walk_top fs directory)) [].

Definition repack (fs : filesystem) (directory : string)
  : list member * option exn :=
  write_members (walk_top fs directory) [].

(** ** preprocess *)

Inductive pyval : Type :=
| PyInt (z : Z)
| PyText (s : string).

(** [str(v)] *)
Definition str (v : pyval) : string :=
  match v with
  | PyInt z => str_of_Z z
  | PyText s => s
  end.

(** [line[i:]] *)
Definition slice_from (i : nat) (line : string) : string :=
  substring i (String.length line - i) line.

Inductive iteration : Type :=
| Exit (line : string)       (* the condition of the while is false *)
| Again (line : string)      (* the body ran; test the condition again *)
| Throw (e : exn).

(** The test and one run of the body of [while '%%' in line]
    (lines 195-202). *)
Definition substitute_once (variables : gmap string pyval) (line : string)
  : iteration :=
  match index 0 "%%" line with
  | None => Exit line
  | Some start_marker =>
      match index (start_marker + 2) "%%" line with
      | None => Throw (ValueError "substring not found")
      | Some end_marker =>
          let variable :=
            substring (start_marker + 2) (end_marker - (start_marker + 2))
                      line in
          match variables !! variable with
          | Some v =>
              Again (substring 0 start_marker line ++ str v
                     ++ slice_from (end_marker + 2) line)
          | None => Again line
          end
      end
  end.

(** The while loop on one line, stopped after [fuel] iterations: [None]
    means that the loop is still running. *)
Fixpoint substitute (fuel : nat) (variables : gmap string pyval)
    (line : string) : option (result string) :=
  match fuel with
  | O => None
  | S fuel' =>
      match substitute_once variables line with
      | Exit line' => Some (Ok line')
      | Again line' => substitute fuel' variables line'
      | Throw e => Some (Raise e)
      end
  end.

(** The loop over the lines of the file; the fuel is per line. *)
Fixpoint preprocess_lines (fuel : nat) (variables : gmap string pyval)
    (lines : list string) (output : string) : option (result string) :=
  match lines with
  | [] => Some (Ok output)
  | line :: rest =>
      match substitute fuel variables line with
      | None => None
      | Some (Raise e) => Some (Raise e)
      | Some (Ok line') =>
          preprocess_lines fuel variables rest (output ++ line')
      end
  end.

Definition preprocess (fuel : nat) (fs : filesystem) (source_file : string)
    (variables : gmap string pyval) : option (result string) :=
  match fs_open fs source_file with
  | None => Some (Raise (IOError source_file))
  | Some lines => preprocess_lines fuel variables lines ""
  end.

(** ** generate_plugins *)

(** What a member of the plugins archive holds: a copied file, a text
    written with [writestr], or a packaged SDK copied from its temporary
    file. *)
Inductive payload : Type :=
| Copied (data : list string)
| Text (text : string)
| Packed (members : list member).

Definition entry : Type := string * payload.

(** The thread pool together with what the workers share.  A temporary
    file is named by a number; [NamedTemporaryFile] hands out a name that
    no other file has. *)
Record pool : Type := mkPool {
  queue : list (Z * string);            (* submitted, not yet picked up *)
  running : list (Z * string * nat);    (* inside asynchronous_packer *)
  next_temp : nat;
  temp_files : gmap nat (list member);  (* temporary files on disk *)
  sdk_archives : gmap Z nat             (* the dictionary of the closure *)
}.

Definition pool_init (sdks : list (Z * string)) : pool :=
  {| queue := sdks; running := []; next_temp := 0;
     temp_files := ∅; sdk_archives := ∅ |}.

(** The files on disk and the output archive while it is open. *)
Record disk : Type := mkDisk {
  output : list entry;
  temporaries : gmap nat (list member)
}.

(** What a call of [generate_plugins] leaves behind: whether it returns
    or the exception it raises (the size that it returns is not
    represented), the output archive as closed by [with] ([None] when it
    was never opened), and the temporary files still on disk. *)
Record outcome : Type := mkOutcome {
  out_result : result unit;
  out_archive : option (list entry);
  out_temp : gmap nat (list member)
}.

Section Assembler.

Variable fs : filesystem.

(** [preprocess(path, variables)] for the variables of the run: the text
    it returns, or the exception it raises. *)
Variable render : string -> result string.

(** A free worker picks up the next work item and enters
    [asynchronous_packer]: the temporary file is created (line 272). *)
Definition start (st : pool) : pool :=
  match queue st with
  | [] => st
  | (api_level, path) :: rest =>
      {| queue := rest;
         running := (running st ++ [(api_level, path, next_temp st)])%list;
         next_temp := S (next_temp st);
         temp_files := <[next_temp st := []]> (temp_files st);
         sdk_archives := sdk_archives st |}
  end.

(** The [i]-th running worker packages its directory and publishes the
    temporary file (lines 273-276); when packaging raises, the future
    keeps the exception, the file stays and nothing is published. *)
Definition finish (i : nat) (st : pool) : pool :=
  match running st !! i with
  | None => st
  | Some (api_level, path, temporary) =>
      let '(members, raised) := package_sdk_source fs path in
      {| queue := queue st;
         running := delete i (running st);
         next_temp := next_temp st;
         temp_files := <[temporary := members]> (temp_files st);
         sdk_archives :=
           match raised with
           | None => <[api_level := temporary]> (sdk_archives st)
           | Some _ => sdk_archives st
           end |}
  end.

(** One scheduling decision: among the running workers and, when a
    worker is free and an item is queued, the start of the next item,
    [pick] selects what happens next. *)
Definition pool_step (workers pick : nat) (st : pool) : pool :=
  let can_start :=
    negb (bool_decide (queue st = []))
    && (length (running st) <? workers)%nat in
  let enabled :=
    (length (running st) + (if can_start then 1 else 0))%nat in
  if (enabled =? 0)%nat then st
  else
    let choice := (pick mod enabled)%nat in
    if (choice <? length (running st))%nat then finish choice st
    else start st.

Fixpoint run_pool (workers : nat) (schedule : list nat) (fuel : nat)
    (st : pool) : pool :=
  match fuel with
  | O => st
  | S fuel' =>
      run_pool workers (tail schedule) fuel'
               (pool_step workers (hd 0%nat schedule) st)
  end.

(** Lines 280-284: every item is submitted and the [with] block ends
    with [shutdown(wait=True)].  Each task takes two steps. *)
Definition pack_all (workers : nat) (schedule : list nat)
    (sdks : list (Z * string)) : pool :=
  run_pool workers schedule (2 * length sdks) (pool_init sdks).

(** [output.write(path, arcname, ...)] *)
Definition zip_write (path arcname : string) (d : disk)
  : result unit * disk :=
  match fs_open fs path with
  | None => (Raise (IOError path), d)
  | Some data =>
      (Ok tt, {| output := (output d ++ [(arcname, Copied data)])%list;
                 temporaries := temporaries d |})
  end.

(** [output.writestr(arcname, preprocess(path, variables), ...)] *)
Definition zip_writestr (arcname path : string) (d : disk)
  : result unit * disk :=
  match render path with
  | Raise e => (Raise e, d)
  | Ok text =>
      (Ok tt, {| output := (output d ++ [(arcname, Text text)])%list;
                 temporaries := temporaries d |})
  end.

Definition and_then (f g : disk -> result unit * disk) (d : disk)
  : result unit * disk :=
  match f d with
  | (Ok _, d') => g d'
  | (Raise e, d') => (Raise e, d')
  end.

Definition icon_name : string := "android_32x32.png".
Definition manifest : string := path_join "META-INF" "MANIFEST.MF".

(** Lines 294-308. *)
Definition write_assets (assets : string) : disk -> result unit * disk :=
  and_then (zip_write (path_join assets "about.html") "about.html")
 (and_then (zip_write (path_join assets "about.ini") "about.ini")
 (and_then (zip_write (path_join assets "about.mappings") "about.mappings")
 (and_then (zip_write (path_join assets icon_name) icon_name)
 (and_then (zip_writestr "about.properties"
                         (path_join assets "about.properties"))
 (and_then (zip_writestr manifest (path_join assets manifest))
           (zip_write (path_join assets icon_name)
                      (path_join "icons" icon_name))))))).

(** [sorted(sdks)] *)
Definition sorted_levels (sdks : list (Z * string)) : list Z :=
  merge_sort Z.le (sdks.*1).

(** Lines 312-317. *)
Fixpoint write_levels (archives : gmap Z nat) (levels : list Z) (d : disk)
  : result unit * disk :=
  match levels with
  | [] => (Ok tt, d)
  | sdk :: rest =>
      let sources_zip := path_join (str_of_Z sdk) "sources.zip" in
      match archives !! sdk with
      | None => (Raise (KeyError sdk), d)
      | Some temporary =>
          match temporaries d !! temporary with
          | None => (Raise (IOError "temporary file"), d)
          | Some members =>
              write_levels archives rest
                {| output := (output d ++ [(sources_zip, Packed members)])%list;
                   temporaries := delete temporary (temporaries d) |}
          end
      end
  end.

(** [generate_plugins(base, target, variables, sdks, threads)]; the run
    of the workers is decided by [schedule]. *)
Definition generate_plugins (base : string) (sdks : list (Z * string))
    (threads : Z) (schedule : list nat) : outcome :=
  if threads <=? 0 then
    {| out_result := Raise (ValueError "max_workers must be greater than 0");
       out_archive := None; out_temp := ∅ |}
  else
    let st := pack_all (Z.to_nat threads) schedule sdks in
    let assets := path_join (path_join base "assets") "plugins" in
    let '(r, d) :=
      and_then (write_assets assets)
               (write_levels (sdk_archives st) (sorted_levels sdks))
               {| output := []; temporaries := temp_files st |} in
    {| out_result := r; out_archive := Some (output d);
       out_temp := temporaries d |}.

End Assembler.

(** ** main *)




(** Lines 364-367: [not ARGUMENTS.threads] holds for [None] and for 0. *)
Definition main_threads (threads : option Z) (cpu_count : Z) : Z :=
  match threads with
  | None => cpu_count
  | Some t => if t =? 0 then cpu_count else t
  end.

(** * Definitions for the properties

    What the statements below speak of beside the program itself: the
    invariant of the pool, the parts of an outcome, the words of the
    design document, and the inputs of the examples. *)

Definition HEX : string := "0123456789ABCDEF".


(** The property file of a sub-directory of [sources]. *)
Definition properties_path (sources directory : string) : string :=
  path_join (path_join sources directory) "source.properties".

(** The regular files of a tree, as the design document speaks of them:
    [has_file top components data] when following [components] from
    [top] leads to a file with content [data]. *)
Inductive has_file : node -> list string -> option (list string) -> Prop :=
| has_file_here (entries : list (string * node)) (name : string)
    (data : option (list string)) :
    In (name, File data) entries ->
    has_file (Dir entries) [name] data
| has_file_below (entries sub : list (string * node)) (name : string)
    (components : list string) (data : option (list string)) :
    In (name, Dir sub) entries ->
    has_file (Dir sub) components data ->
    has_file (Dir entries) (name :: components) data.

(** The path of a file relative to the directory [rel]. *)
Definition relative_path (rel : string) (components : list string) : string :=
  fold_left path_join components rel.

Definition content (f : string * option (list string)) : member :=
  (fst f, default [] (snd f)).

(** What a worker leaves in the temporary file of a directory, and
    whether it publishes the file. *)
Definition archive_of (fs : filesystem) (path : string) : list member :=
  fst (package_sdk_source fs path).

Definition packs (fs : filesystem) (path : string) : bool :=
  match snd (package_sdk_source fs path) with
  | None => true
  | Some _ => false
  end.

Definition temps (st : pool) : list nat := (running st).*2.

(** The temporary file of the task submitted at position [t] is named
    [t]: workers pick the items up in the order of submission. *)
Record pool_inv (fs : filesystem) (sdks : list (Z * string)) (st : pool)
  : Prop := mkPoolInv {
  inv_queue : queue st = drop (next_temp st) sdks;
  inv_next : (next_temp st <= length sdks)%nat;
  inv_running : forall l p t,
    (l, p, t) ∈ running st ->
    sdks !! t = Some (l, p) /\ (t < next_temp st)%nat;
  inv_nodup : NoDup (temps st);
  inv_archives : forall l t,
    sdk_archives st !! l = Some t <->
    exists p, sdks !! t = Some (l, p) /\ (t < next_temp st)%nat
              /\ (t ∉ temps st) /\ packs fs p = true;
  inv_fresh : forall t,
    (next_temp st <= t)%nat -> temp_files st !! t = None;
  inv_done : forall t l p,
    sdks !! t = Some (l, p) -> (t < next_temp st)%nat -> t ∉ temps st ->
    temp_files st !! t = Some (archive_of fs p)
}.

(** The work that is left: two steps for a queued item, one for a
    running one. *)
Definition remaining (st : pool) : nat :=
  (2 * length (queue st) + length (running st))%nat.

Definition empty_disk : disk := {| output := []; temporaries := ∅ |}.

(** An operation that only appends to the archive. *)
Definition appends (f : disk -> result unit * disk) : Prop :=
  forall d,
    f d = (fst (f empty_disk),
           {| output := output d ++ output (snd (f empty_disk));
              temporaries := temporaries d |}).

Definition level_name (l : Z) : string :=
  path_join (str_of_Z l) "sources.zip".

Definition level_member (payload_of : Z -> list member) (l : Z) : entry :=
  (level_name l, Packed (payload_of l)).

(** The temporary files after those of [levels] are unlinked. *)
Fixpoint unlink (archives : gmap Z nat) (levels : list Z)
    (m : gmap nat (list member))
  : gmap nat (list member) :=
  match levels with
  | [] => m
  | l :: rest =>
      unlink archives rest (match archives !! l with
                            | Some t => delete t m
                            | None => m
                            end)
  end.

Definition plugin_assets (base : string) : string :=
  path_join (path_join base "assets") "plugins".

(** [sdks[l]] *)
Definition directory_of (sdks : list (Z * string)) (l : Z) : string :=
  default "" ((list_to_map sdks : gmap Z string) !! l).

(** The static part of the archive (lines 294-308) on its own. *)
Definition assets_written (fs : filesystem) (render : string -> result string)
    (base : string) : result unit * disk :=
  write_assets fs render (plugin_assets base) empty_disk.

Definition static_entries (fs : filesystem)
    (render : string -> result string) (base : string) : list entry :=
  output (snd (assets_written fs render base)).

(** The member of level [l]: the packaged directory of [l] under
    [<l>/sources.zip]. *)
Definition level_entry (fs : filesystem) (sdks : list (Z * string)) (l : Z)
  : entry :=
  level_member (fun l => archive_of fs (directory_of sdks l)) l.

(** What the design document asks of a run in which the tasks of the
    levels [failing] fail: one error that names them, no final archive,
    and no temporary file left. *)
Definition reported_levels (r : result unit) : list Z :=
  match r with
  | Raise (KeyError l) => [l]
  | _ => []
  end.

Definition clean_abort (failing : list Z) (o : outcome) : Prop :=
  reported_levels (out_result o) = failing
  /\ out_archive o = None
  /\ out_temp o = ∅.

(** ** Words for the further properties *)

(** Every character of [s] satisfies [P]. *)
Fixpoint all_chars (P : ascii -> bool) (s : string) : bool :=
  match s with
  | EmptyString => true
  | String c s' => P c && all_chars P s'
  end.

(** A character that the tokenizer copies: no backslash and no
    separator. *)
Definition plain_char (c : ascii) : bool :=
  negb (Ascii.eqb c backslash) && negb (char_in c ":=").

Definition is_separator (c : ascii) : bool := char_in c ":=".

Definition is_hex (c : ascii) : bool := char_in c HEX.

(** The state of the scan between two tokens, with key [k] and text
    [cl]. *)
Definition between (k cl : string) : scan :=
  {| key := k; current_line := cl; in_key := true; escaped := false;
     hex_code := false; hex_string := "" |}.

(** The state of the scan inside an escape, with the digits [hs]. *)
Definition in_escape (k cl hs : string) : scan :=
  {| key := k; current_line := cl; in_key := true; escaped := false;
     hex_code := true; hex_string := hs |}.

(** The pair of a scan that has ended in [st]. *)
Definition scan_result (st : option scan) : option (string * string) :=
  match st with
  | None => None
  | Some st =>
      if is_empty (key st) then None
      else Some (key st, strip (current_line st))
  end.

(** The second state differs from the first by one character in front
    of the text. *)
Definition shifted (c : ascii) (st st' : scan) : Prop :=
  st' = {| key := key st; current_line := String c (current_line st);
           in_key := in_key st; escaped := escaped st;
           hex_code := hex_code st; hex_string := hex_string st |}.

(** The state of the reader when no line is pending. *)
Definition ready (m : gmap string string) : reader :=
  {| values := m; is_continuing := false; line_buffer := "" |}.

(** A line that is not continued on the next one. *)
Definition complete (source_line : string) : Prop :=
  endswith "\" (strip source_line) = false.

(** A pair as the tokenizer returns it. *)
Definition trimmed_pair (k v : string) : Prop :=
  k <> "" /\ strip k = k /\ strip v = v.

(** A line that the reader skips when it is not a continuation. *)
Definition is_skipped (source_line : string) : bool :=
  let line := strip source_line in
  is_empty line || startswith "#" line || startswith "!" line.

(** The reading of a file in which no line is continued, said without
    the buffer: every line that is not skipped is trimmed and
    tokenized, and its pair is stored. *)
Fixpoint parse_complete_lines (values : gmap string string)
    (lines : list string) : result (gmap string string) :=
  match lines with
  | [] => Ok values
  | source_line :: rest =>
      if is_skipped source_line then parse_complete_lines values rest
      else
        match split_property_line (strip source_line) with
        | None =>
            Raise (Exception ("Invalid property found in" ++ " "
                              ++ strip source_line))
        | Some (key, value) =>
            parse_complete_lines (<[key := value]> values) rest
        end
  end.

(** The level that a sub-directory of [sources] reports: its property
    file is read and holds a string of digits under
    [AndroidVersion.ApiLevel]. *)
Definition reported_level (fs : filesystem) (sources directory : string)
  : option Z :=
  match parse_property_file fs (properties_path sources directory) with
  | Raise _ => None
  | Ok properties =>
      match properties !! "AndroidVersion.ApiLevel" with
      | None => None
      | Some v => if isdigit v then Some (int10 v) else None
      end
  end.

Definition catalog_entry (fs : filesystem) (sources directory : string)
  : option (Z * string) :=
  match reported_level fs sources directory with
  | None => None
  | Some l => Some (l, path_join sources directory)
  end.

(** The number of regular files below a directory. *)
Fixpoint count_files (top : node) : nat :=
  match top with
  | File _ => 0
  | Dir entries =>
      list_sum (map (fun e => match snd e with
                              | File _ => 1%nat
                              | Dir _ => count_files (snd e)
                              end) entries)
  end.

(** A member other than the metadata file. *)
Definition kept (m : member) : bool :=
  negb (String.eqb (fst m) "source.properties").

(** A character other than the percent sign. *)
Definition not_percent (c : ascii) : bool := negb (Ascii.eqb c "%").

(** The lines of a file, one after the other. *)
Definition join_lines (lines : list string) : string :=
  fold_right String.append "" lines.

(** A template line with one marker: [pre%%name%%post]. *)
Definition marked (pre name post : string) : string :=
  pre ++ "%%" ++ name ++ "%%" ++ post.

(** The names of the static members of the plugins archive. *)
Definition static_names : list string :=
  ["about.html"; "about.ini"; "about.mappings"; "android_32x32.png";
   "about.properties"; "META-INF/MANIFEST.MF"; "icons/android_32x32.png"].

(** ** Inputs of the examples *)

(** Two sub-directories [a] and [b] of [sdk/sources]: [a] reports level
    21 and the property file of [b] is given. *)
Definition two_directories (b : option (list string)) : filesystem :=
  {| fs_exists := fun _ => true;
     fs_listdir := fun _ => ["a"; "b"];
     fs_open := fun p =>
       if String.eqb p "sdk/sources/a/source.properties"
       then Some ["AndroidVersion.ApiLevel=21"]
       else if String.eqb p "sdk/sources/b/source.properties" then b
       else None;
     fs_tree := fun _ => None |}.

(** The directory [d] with the files [a.txt] and [sub/b.txt]. *)
Definition two_files : filesystem :=
  {| fs_exists := fun _ => true;
     fs_listdir := fun _ => [];
     fs_open := fun _ => None;
     fs_tree := fun p =>
       if String.eqb p "d"
       then Some (Dir [("a.txt", File (Some ["alpha"]));
                       ("sub", Dir [("b.txt", File (Some ["beta"]))])])
       else None |}.

(** Four directories to package: [d1] and [d3] can be read, [d2] and
    [d4] hold a file that cannot; every asset exists. *)
Definition four_sdks : filesystem :=
  {| fs_exists := fun _ => true;
     fs_listdir := fun _ => [];
     fs_open := fun _ => Some ["asset"];
     fs_tree := fun p =>
       if String.eqb p "d1" then Some (Dir [("a.txt", File (Some ["x"]))])
       else if String.eqb p "d2" then Some (Dir [("b.txt", File None)])
       else if String.eqb p "d3" then Some (Dir [("c.txt", File (Some ["y"]))])
       else if String.eqb p "d4" then Some (Dir [("d.txt", File None)])
       else None |}.

Definition plain_render (path : string) : result string := Ok "text".

(** * Properties *)

(** ** The line tokenizer *)

Section Tokenizer.

Lemma scan_plain_in_key (st st' : scan) (c : ascii) :
  scan_plain st c = Some st' -> in_key st' = in_key st.
Proof.
  unfold scan_plain; intros H.
  repeat case_match; simplify_eq; reflexivity.
Qed.

Lemma scan_char_in_key (st st' : scan) (c : ascii) :
  scan_char st c = Some st' -> in_key st' = in_key st.
Proof.
  unfold scan_char; intros H.
  repeat case_match; simplify_eq; try reflexivity;
    try (apply scan_plain_in_key in H; exact H).
Qed.

(** No assignment ever clears [in_key]: the scan ends in the mode in
    which it started. *)
Lemma scan_line_in_key (line : string) :
  forall st st', scan_line st line = Some st' -> in_key st' = in_key st.
Proof.
  induction line as [|c rest IH]; intros st st' H; simpl in H.
  - by simplify_eq.
  - destruct (scan_char st c) as [st1|] eqn:E; [|discriminate].
    rewrite (IH _ _ H). by eapply scan_char_in_key.
Qed.

(** While [in_key] holds a separator is never rejected. *)
Lemma scan_plain_separator (st : scan) (c : ascii) :
  in_key st = true -> char_in c ":=" = true ->
  scan_plain st c =
    Some {| key := strip (current_line st); current_line := "";
            in_key := true; escaped := escaped st;
            hex_code := hex_code st; hex_string := hex_string st |}.
Proof.
  intros Hk Hc. unfold scan_plain.
  destruct (Ascii.eqb c backslash) eqn:E.
  - apply Ascii.eqb_eq in E; subst c. discriminate.
  - rewrite Hc, Hk. reflexivity.
Qed.

Lemma scan_line_app (l1 l2 : string) :
  forall st,
    scan_line st (l1 ++ l2) =
    match scan_line st l1 with
    | None => None
    | Some st' => scan_line st' l2
    end.
Proof.
  induction l1 as [|c l1 IH]; intros st; simpl; [reflexivity|].
  destruct (scan_char st c); [apply IH | reflexivity].
Qed.

(** The digits of an escape are only collected: after [\u] and four
    hexadecimal digits the state holds them in [hex_string] and
    [current_line] is as before. *)
Lemma scan_escape_collects (st : scan) (a b c d : ascii) :
  hex_code st = false -> escaped st = false ->
  char_in a HEX = true -> char_in b HEX = true ->
  char_in c HEX = true -> char_in d HEX = true ->
  scan_line st (String backslash (String "u"
                 (String a (String b (String c (String d "")))))) =
  Some {| key := key st; current_line := current_line st;
          in_key := in_key st; escaped := false; hex_code := true;
          hex_string := String a (String b (String c (String d ""))) |}.
Proof.
  intros Hh He Ha Hb Hc Hd. unfold HEX in *.
  cbn [scan_line]. unfold scan_char at 1. rewrite Hh, He.
  unfold scan_plain at 1. rewrite Ascii.eqb_refl.
  unfold scan_char at 1. cbn [hex_code escaped]. rewrite Hh.
  cbn [char_in Ascii.eqb Bool.eqb orb].
  cbn [Ascii.eqb Bool.eqb].
  unfold scan_char. cbn [hex_code hex_string String.length Nat.eqb].
  rewrite Ha. cbn [negb hex_code hex_string].
  cbn [String.append char String.length Nat.eqb].
  rewrite Hb. cbn [negb hex_code hex_string String.append char String.length Nat.eqb].
  rewrite Hc. cbn [negb hex_code hex_string String.append char String.length Nat.eqb].
  rewrite Hd. cbn [negb hex_code hex_string String.append char String.length Nat.eqb key current_line in_key escaped].
  reflexivity.
Qed.

(** The decimal string is appended when the next character arrives. *)
Lemma scan_escape_flushed (st : scan) (h : string) (x : ascii) :
  hex_code st = true -> hex_string st = h -> String.length h = 4%nat ->
  scan_char st x =
  scan_plain {| key := key st;
                current_line := current_line st ++ str_of_N (int16 h);
                in_key := in_key st; escaped := escaped st;
                hex_code := false; hex_string := "" |} x.
Proof.
  intros Hh Hs Hl. unfold scan_char. rewrite Hh, Hs, Hl. reflexivity.
Qed.

(** At the end of the line nothing appends it: an escape that ends the
    line leaves the pair of the line without it. *)
Lemma trailing_escape_dropped (line : string) (st : scan) (a b c d : ascii) :
  scan_line scan_init line = Some st ->
  hex_code st = false -> escaped st = false ->
  char_in a HEX = true -> char_in b HEX = true ->
  char_in c HEX = true -> char_in d HEX = true ->
  split_property_line
    (line ++ String backslash (String "u"
               (String a (String b (String c (String d "")))))) =
  split_property_line line.
Proof.
  intros Hs Hh He Ha Hb Hc Hd. unfold split_property_line.
  rewrite scan_line_app, Hs.
  rewrite (scan_escape_collects st a b c d Hh He Ha Hb Hc Hd).
  reflexivity.
Qed.

End Tokenizer.

(** C3.  [split_property_line] on the line [k=\u0041]: the four digits are
    collected, the line ends, and the value is empty: the decimal string
    65 is appended only when a further character follows the escape, as
    in [k=\u0041x]. *)
Theorem split_property_line_trailing_escape :
  split_property_line "k=\u0041" = Some ("k", "")
  /\ split_property_line "k=\u0041x" = Some ("k", "65x").
Proof. split; reflexivity. Qed.

(** C4.  [split_property_line] on the line [k=v=w]: the second separator
    is taken like the first, the key becomes [v] and the value [w]. *)
Theorem split_property_line_second_separator :
  split_property_line "k=v=w" = Some ("v", "w").
Proof. reflexivity. Qed.

(** ** The file reader *)

Section Reader.

Lemma read_lines_app (l1 l2 : list string) :
  forall st,
    read_lines st (l1 ++ l2) =
    (let* st' := read_lines st l1 in read_lines st' l2).
Proof.
  induction l1 as [|x l1 IH]; intros st; simpl; [reflexivity|].
  destruct (read_line st x); simpl; [apply IH | reflexivity].
Qed.

Lemma endswith_nonempty (s : string) :
  endswith "\" s = true -> is_empty s = false.
Proof. intros H. destruct s; [discriminate | reflexivity]. Qed.

(** A line that ends with a backslash is buffered or skipped; it never
    reaches the dictionary and never raises. *)
Lemma read_line_continued (st : reader) (source_line : string) :
  endswith "\" (strip source_line) = true ->
  exists st', read_line st source_line = Ok st' /\ values st' = values st.
Proof.
  intros H. unfold read_line.
  rewrite (endswith_nonempty _ H), H.
  destruct (negb (is_continuing st) && _); eexists; split; reflexivity.
Qed.

Lemma read_lines_continued (pending : list string) :
  Forall (fun l => endswith "\" (strip l) = true) pending ->
  forall st,
    exists st', read_lines st pending = Ok st' /\ values st' = values st.
Proof.
  induction 1 as [|l pending Hl _ IH]; intros st; simpl.
  - by exists st.
  - destruct (read_line_continued st l Hl) as (st1 & -> & Hv1).
    destruct (IH st1) as (st2 & E2 & Hv2). simpl.
    exists st2. split; [exact E2 | congruence].
Qed.

Lemma string_app_assoc (a b c : string) : (a ++ b) ++ c = a ++ b ++ c.
Proof.
  induction a as [|x a IH]; [reflexivity|].
  change (String x ((a ++ b) ++ c) = String x (a ++ b ++ c)).
  by rewrite IH.
Qed.



End Reader.

(** C10.  When the file ends with lines that each end with a backslash,
    in particular when its last line does, [parse_property_file] returns
    what it returns for the file without them: the buffered text is
    dropped, its pair is never stored, and no exception is raised for
    it. *)
Theorem unterminated_continuation_discarded
    (complete pending : list string) :
  Forall (fun l => endswith "\" (strip l) = true) pending ->
  parse_property_lines (complete ++ pending) = parse_property_lines complete.
Proof.
  intros H. unfold parse_property_lines.
  rewrite read_lines_app.
  destruct (read_lines reader_init complete) as [st|e]; simpl; [|reflexivity].
  destruct (read_lines_continued pending H st) as (st' & -> & Hv).
  simpl. by rewrite Hv.
Qed.

Lemma unterminated_continuation_discarded_witness :
  Forall (fun l => endswith "\" (strip l) = true) ["k=v\"]
  /\ parse_property_lines (["a=1"] ++ ["k=v\"])
     = parse_property_lines ["a=1"].
Proof.
  assert (H : Forall (fun l => endswith "\" (strip l) = true) ["k=v\"])
    by (repeat constructor).
  split; [exact H|].
  exact (unterminated_continuation_discarded ["a=1"] ["k=v\"] H).
Defined.

(** The pending pair is absent from the mapping: the file [k=v\] alone
    gives the empty mapping. *)
Example unterminated_only_line :
  parse_property_lines ["k=v\"] = Ok ∅.
Proof. reflexivity. Qed.




Example continuation_comment_line_is_content :
  parse_property_lines ["k=a\"; "#b"] = Ok {[ "k" := "a\ #b" ]}.
Proof. reflexivity. Qed.

(** ** The source catalog *)

Section Catalog.

Variable fs : filesystem.
Variable sources : string.

Lemma collect_directories_app (l1 l2 : list string) :
  forall acc,
    collect_directories fs sources acc (l1 ++ l2) =
    (let* acc' := collect_directories fs sources acc l1 in
     collect_directories fs sources acc' l2).
Proof.
  induction l1 as [|d l1 IH]; intros acc; simpl; [reflexivity|].
  destruct (collect_directory fs sources acc d); simpl;
    [apply IH | reflexivity].
Qed.

(** [open] raises and nothing catches it. *)
Lemma collect_directory_unreadable (acc : list (Z * string)) (d : string) :
  fs_open fs (properties_path sources d) = None ->
  collect_directory fs sources acc d = Raise (IOError (properties_path sources d)).
Proof.
  intros H. unfold collect_directory, parse_property_file.
  fold (properties_path sources d). by rewrite H.
Qed.

(** The directories that are left out: the file is read and reports no
    level, or one that is not a string of digits. *)
Lemma collect_directory_excluded (acc : list (Z * string)) (d : string)
    (properties : gmap string string) :
  parse_property_file fs (properties_path sources d) = Ok properties ->
  match properties !! "AndroidVersion.ApiLevel" with
  | None => True
  | Some v => isdigit v = false
  end ->
  collect_directory fs sources acc d = Ok acc.
Proof.
  intros Hp Hv. unfold collect_directory. fold (properties_path sources d).
  rewrite Hp. cbn [bind].
  destruct (properties !! "AndroidVersion.ApiLevel") as [v|];
    [|reflexivity].
  rewrite Hv. cbn [negb]. by rewrite orb_true_r.
Qed.

(** A level that is already in the catalog: building the message of the
    exception fails. *)
Lemma collect_directory_duplicate (acc : list (Z * string)) (d v : string)
    (properties : gmap string string) :
  parse_property_file fs (properties_path sources d) = Ok properties ->
  properties !! "AndroidVersion.ApiLevel" = Some v ->
  isdigit v = true ->
  has_level (int10 v) acc = true ->
  collect_directory fs sources acc d = Raise TypeError.
Proof.
  intros Hp Hv Hd Hl. unfold collect_directory. fold (properties_path sources d).
  rewrite Hp. cbn [bind]. rewrite Hv.
  destruct v as [|c v]; [discriminate|].
  cbn [is_empty orb]. rewrite Hd. cbn [negb]. by rewrite Hl.
Qed.

Lemma has_level_spec (l : Z) (acc : list (Z * string)) :
  has_level l acc = false -> l ∉ acc.*1.
Proof.
  unfold has_level. induction acc as [|[k p] acc IH]; cbn [existsb fst].
  - intros _. apply not_elem_of_nil.
  - intros H. apply orb_false_iff in H as [Hk Hr].
    apply Z.eqb_neq in Hk. rewrite fmap_cons. cbn [fst].
    rewrite not_elem_of_cons. split; [congruence | by apply IH].
Qed.

(** The keys of the catalog are pairwise different, as those of a
    dictionary are. *)
Lemma collect_directories_NoDup (listing : list string) :
  forall acc catalog,
    collect_directories fs sources acc listing = Ok catalog ->
    NoDup (acc.*1) -> NoDup (catalog.*1).
Proof.
  induction listing as [|d listing IH]; intros acc catalog H Hn; simpl in H.
  - by simplify_eq.
  - destruct (collect_directory fs sources acc d) as [acc'|] eqn:E;
      [|discriminate].
    simpl in H. apply (IH _ _ H).
    unfold collect_directory in E.
    destruct (parse_property_file _ _); [|discriminate]. simpl in E.
    repeat case_match; simplify_eq; try assumption.
    rewrite fmap_app. apply NoDup_app. split_and!.
    + assumption.
    + intros x Hx Hx'. apply list_elem_of_singleton in Hx'. subst x.
      by eapply has_level_spec.
    + apply NoDup_singleton.
Qed.

End Catalog.

(** A catalog that [collect_android_sources] returns has each level
    once. *)
Lemma collect_android_sources_NoDup (fs : filesystem)
    (base_directory : string) (catalog : list (Z * string)) :
  collect_android_sources fs base_directory = Ok catalog ->
  NoDup (catalog.*1).
Proof.
  unfold collect_android_sources. intros H.
  destruct (negb _); [discriminate|].
  eapply collect_directories_NoDup; [exact H | constructor].
Qed.

(** C5, as stated, fails when [b] has no property file: the run fails
    and returns no catalog. *)
Lemma collect_missing_properties_counterexample :
  collect_android_sources (two_directories None) "sdk"
  = Raise (IOError "sdk/sources/b/source.properties")
  /\ ~ (exists catalog,
          collect_android_sources (two_directories None) "sdk" = Ok catalog).
Proof.
  split; [reflexivity|]. intros [catalog H]. vm_compute in H. discriminate.
Qed.

(** C5, amended.  A sub-directory whose [source.properties] cannot be
    opened fails the whole run: [collect_android_sources] raises, and
    when the sub-directories listed before it are collected without an
    exception, what it raises is the [IOError] of that file. *)
Theorem collect_unreadable_properties_fatal
    (fs : filesystem) (base : string) (before after : list string)
    (d : string) :
  let sources := path_join base "sources" in
  fs_exists fs sources = true ->
  fs_listdir fs sources = (before ++ d :: after)%list ->
  fs_open fs (properties_path sources d) = None ->
  (exists e, collect_android_sources fs base = Raise e)
  /\ (forall acc,
        collect_directories fs sources [] before = Ok acc ->
        collect_android_sources fs base
        = Raise (IOError (properties_path sources d))).
Proof.
  intros sources He Hl Ho.
  assert (E : collect_android_sources fs base =
              (let* acc := collect_directories fs sources [] before in
               Raise (IOError (properties_path sources d)))).
  { unfold collect_android_sources. fold sources. rewrite He, Hl.
    cbn [negb]. rewrite collect_directories_app.
    destruct (collect_directories fs sources [] before) as [acc|e];
      [|reflexivity].
    cbn [bind collect_directories].
    by rewrite collect_directory_unreadable. }
  split.
  - rewrite E. destruct (collect_directories fs sources [] before);
      eexists; reflexivity.
  - intros acc Ha. by rewrite E, Ha.
Qed.

Lemma collect_unreadable_properties_fatal_witness :
  fs_exists (two_directories None) (path_join "sdk" "sources") = true
  /\ fs_listdir (two_directories None) (path_join "sdk" "sources")
     = (["a"] ++ "b" :: [])%list
  /\ fs_open (two_directories None)
             (properties_path (path_join "sdk" "sources") "b") = None
  /\ (exists e,
        collect_android_sources (two_directories None) "sdk" = Raise e)
  /\ (forall acc,
        collect_directories (two_directories None)
          (path_join "sdk" "sources") [] ["a"] = Ok acc ->
        collect_android_sources (two_directories None) "sdk"
        = Raise (IOError (properties_path (path_join "sdk" "sources") "b"))).
Proof.
  split; [reflexivity|]. split; [reflexivity|]. split; [reflexivity|].
  apply (collect_unreadable_properties_fatal
           (two_directories None) "sdk" ["a"] [] "b"); reflexivity.
Defined.

(** C6.  Two sub-directories that both report level 21: the run fails at
    the second one, but with the [TypeError] of the concatenation
    ['Duplicated API level: ' + api_level], which names nothing.  With a
    second sub-directory that reports no level, the catalog has the one
    entry of level 21. *)
Theorem collect_duplicate_level :
  collect_android_sources
    (two_directories (Some ["AndroidVersion.ApiLevel=21"])) "sdk"
  = Raise TypeError
  /\ collect_android_sources
       (two_directories (Some ["Pkg.Revision=1"])) "sdk"
     = Ok [(21, "sdk/sources/a")].
Proof. split; reflexivity. Qed.

(** ** The template preprocessor *)

Section Preprocess.

Variable variables : gmap string pyval.

(** A pass that leaves the line as it is repeats for ever. *)
Lemma substitute_stuck (line : string) :
  substitute_once variables line = Again line ->
  forall fuel, substitute fuel variables line = None.
Proof.
  intros H fuel. induction fuel as [|fuel IH]; simpl; [reflexivity|].
  by rewrite H.
Qed.

(** The first marker of the line names no variable. *)
Lemma substitute_once_unresolved (line : string) (i j : nat) :
  index 0 "%%" line = Some i ->
  index (i + 2) "%%" line = Some j ->
  variables !! substring (i + 2) (j - (i + 2)) line = None ->
  substitute_once variables line = Again line.
Proof.
  intros Hi Hj Hv. unfold substitute_once. by rewrite Hi, Hj, Hv.
Qed.

End Preprocess.

(** C8.  The loop of [preprocess] on a line whose marker names no
    variable: every pass finds the same marker and leaves the line as
    it is, so the loop ends for no number of passes.  A marker that
    names a variable is replaced. *)
Theorem substitute_unresolved_marker_diverges :
  (forall fuel, substitute fuel ∅ "version %%NAME%% of" = None)
  /\ (forall fuel,
        preprocess_lines fuel ∅ ["version %%NAME%% of"; "end"] "" = None)
  /\ (forall fuel,
        substitute fuel {[ "YEAR" := PyInt 2013 ]} "%%YEAR%% %%NAME%%"
        = None)
  /\ substitute 2 {[ "YEAR" := PyInt 2013 ]} "(c) %%YEAR%%"
     = Some (Ok "(c) 2013").
Proof.
  split; [|split; [|split]].
  - apply substitute_stuck. reflexivity.
  - intros fuel. cbn [preprocess_lines].
    by rewrite substitute_stuck by reflexivity.
  - intros [|fuel]; [reflexivity|].
    change (substitute fuel {[ "YEAR" := PyInt 2013 ]} "2013 %%NAME%%" = None).
    apply substitute_stuck. reflexivity.
  - reflexivity.
Qed.

(** ** The archive packer *)

Section Packer.

Lemma in_files_of (rel target : string) (data : option (list string))
    (entries : list (string * node)) :
  In (target, data) (files_of rel entries) <->
  exists name, In (name, File data) entries /\ target = path_join rel name.
Proof.
  unfold files_of. rewrite in_flat_map. split.
  - intros ([name [d|sub]] & Hin & H); simpl in H; [|tauto].
    destruct H as [H|[]]. simplify_eq. eauto.
  - intros (name & Hin & ->). exists (name, File data).
    split; [assumption | simpl; tauto].
Qed.

(** The walk yields the regular files of the tree, each under its
    relative path, and nothing else. *)
Lemma walk_spec (top : node) :
  forall rel target data,
    In (target, data) (walk rel top) <->
    exists components,
      has_file top components data /\ target = relative_path rel components.
Proof.
  induction top as [d|entries IH] using node_ind'; intros rel target data.
  - simpl. split; [tauto|]. intros (cs & H & _). inversion H.
  - cbn [walk]. rewrite in_app_iff, in_files_of, in_flat_map. split.
    + intros [(name & Hin & ->)|([name child] & Hin & H)].
      * exists [name]. split; [by constructor | reflexivity].
      * cbn [fst snd] in H. destruct child as [d|sub]; [destruct H|].
        rewrite List.Forall_forall in IH.
        apply (IH _ Hin) in H as (cs & Hcs & ->).
        exists (name :: cs). split; [|reflexivity].
        by eapply has_file_below.
    + intros (cs & H & ->). inversion H as [es name d Hin|es sub name cs' d Hin Hsub]; subst.
      * left. eauto.
      * right. exists (name, Dir sub). split; [assumption|].
        cbn [fst snd]. rewrite List.Forall_forall in IH.
        apply (IH _ Hin). eauto.
Qed.

(** When every file can be read, every file is written, in order. *)
Lemma write_members_readable (files : list (string * option (list string))) :
  Forall (fun f => snd f <> None) files ->
  forall out,
    write_members files out = ((out ++ map content files)%list, None).
Proof.
  induction 1 as [|[t [d|]] files Hf _ IH]; intros out; simpl.
  - by rewrite app_nil_r.
  - rewrite IH. by rewrite <- app_assoc.
  - by destruct Hf.
Qed.

Lemma in_map_content (files : list (string * option (list string)))
    (name : string) (data : list string) :
  Forall (fun f => snd f <> None) files ->
  In (name, data) (map content files) <-> In (name, Some data) files.
Proof.
  intros Hall. rewrite in_map_iff. rewrite List.Forall_forall in Hall.
  split.
  - intros ([t [d|]] & E & Hin).
    + unfold content in E. simpl in E. by simplify_eq.
    + by destruct (Hall _ Hin).
  - intros Hin. by exists (name, Some data).
Qed.

End Packer.

(** C9, as stated, fails on that directory: neither packer takes an
    exclusion, and neither yields only [sub/b.txt]. *)
Lemma pack_exclusion_counterexample :
  map fst (fst (package_sdk_source two_files "d")) = ["a.txt"; "sub/b.txt"]
  /\ map fst (fst (repack two_files "d")) = ["a.txt"; "sub/b.txt"]
  /\ map fst (fst (package_sdk_source two_files "d")) <> ["sub/b.txt"]
  /\ map fst (fst (repack two_files "d")) <> ["sub/b.txt"].
Proof. repeat split; discriminate. Qed.

(** C9, amended.  For a tree whose files can all be read,
    [package_sdk_source] raises nothing and its members are exactly the
    regular files of the tree, each under its path relative to the top,
    except the one whose relative path is [source.properties]; [repack]
    writes all of them; neither writes an entry for a directory. *)
Theorem pack_members_are_the_files
    (fs : filesystem) (directory : string) (top : node) :
  fs_tree fs directory = Some top ->
  (forall components, ~ has_file top components None) ->
  (snd (package_sdk_source fs directory) = None
   /\ forall name data,
        In (name, data) (fst (package_sdk_source fs directory)) <->
        name <> "source.properties"
        /\ exists components,
             has_file top components (Some data)
             /\ name = relative_path "" components)
  /\ (snd (repack fs directory) = None
      /\ forall name data,
           In (name, data) (fst (repack fs directory)) <->
           exists components,
             has_file top components (Some data)
             /\ name = relative_path "" components).
Proof.
  intros Ht Hread.
  assert (Hall : Forall (fun f => snd f <> None) (walk "" top)).
  { apply List.Forall_forall. intros [t [d|]] Hin; [discriminate|].
    apply walk_spec in Hin as (cs & Hcs & _). by destruct (Hread cs). }
  assert (Hall' : Forall (fun f => snd f <> None)
                         (filter not_properties (walk "" top))).
  { apply List.Forall_forall. intros f Hin.
    apply list_elem_of_In, list_elem_of_filter in Hin as [_ Hin].
    apply list_elem_of_In in Hin.
    rewrite List.Forall_forall in Hall. by apply Hall. }
  unfold package_sdk_source, repack, walk_top. rewrite Ht.
  rewrite !write_members_readable by assumption. cbn [fst snd app].
  split; (split; [reflexivity|]); intros name data.
  - rewrite in_map_content by assumption.
    rewrite <- list_elem_of_In, list_elem_of_filter, list_elem_of_In.
    rewrite walk_spec. unfold not_properties. cbn [fst].
    rewrite Is_true_true, negb_true_iff, String.eqb_neq. reflexivity.
  - rewrite in_map_content by assumption. apply walk_spec.
Qed.

Lemma pack_members_are_the_files_witness :
  let top := Dir [("a.txt", File (Some ["alpha"]));
                  ("sub", Dir [("b.txt", File (Some ["beta"]))])] in
  fs_tree two_files "d" = Some top
  /\ (forall components, ~ has_file top components None)
  /\ snd (package_sdk_source two_files "d") = None
  /\ snd (repack two_files "d") = None.
Proof.
  intros top.
  assert (Ht : fs_tree two_files "d" = Some top) by reflexivity.
  assert (Hread : forall components, ~ has_file top components None).
  { intros cs H. inversion H as [es n d Hin|es sub n cs' d Hin Hsub]; subst.
    - simpl in Hin. destruct Hin as [E|[E|[]]]; discriminate.
    - simpl in Hin. destruct Hin as [E|[E|[]]]; [discriminate|].
      simplify_eq.
      inversion Hsub as [es n' d Hin|es sub' n' cs'' d Hin Hsub']; subst;
        simpl in Hin; destruct Hin as [E|[]]; discriminate. }
  split; [exact Ht|]. split; [exact Hread|].
  destruct (pack_members_are_the_files two_files "d" top Ht Hread)
    as [[H1 _] [H2 _]].
  split; [exact H1 | exact H2].
Defined.

(** The metadata file at the top is left out, one of the same name
    further down is kept, and a file that cannot be read is no obstacle
    when it is the one left out. *)
Example package_sdk_source_excludes_top_properties :
  package_sdk_source
    {| fs_exists := fun _ => true; fs_listdir := fun _ => [];
       fs_open := fun _ => None;
       fs_tree := fun _ =>
         Some (Dir [("source.properties", File None);
                    ("sub", Dir [("source.properties", File (Some ["x"]));
                                 ("b.txt", File (Some ["beta"]))])]) |}
    "d"
  = ([("sub/source.properties", ["x"]); ("sub/b.txt", ["beta"])], None).
Proof. reflexivity. Qed.

(** ** The thread pool *)

Section ListFacts.

Context {A : Type}.

Lemma drop_cons_inv (l : list A) (n : nat) (x : A) (r : list A) :
  drop n l = x :: r -> l !! n = Some x /\ r = drop (S n) l.
Proof.
  intros H. split.
  - rewrite <- (Nat.add_0_r n), <- lookup_drop, H. reflexivity.
  - replace (S n) with (n + 1)%nat by lia.
    rewrite <- drop_drop, H. reflexivity.
Qed.

Lemma elem_of_delete_lookup (l : list A) (i : nat) (x y : A) :
  l !! i = Some x -> y ∈ l <-> y = x \/ y ∈ delete i l.
Proof.
  intros H. rewrite delete_take_drop.
  rewrite <- (take_drop_middle l i x H) at 1.
  rewrite !elem_of_app, elem_of_cons. tauto.
Qed.

Lemma NoDup_delete_lookup (l : list A) (i : nat) (x : A) :
  NoDup l -> l !! i = Some x -> x ∉ delete i l.
Proof.
  intros Hn H. rewrite <- (take_drop_middle l i x H) in Hn.
  rewrite delete_take_drop.
  apply NoDup_app in Hn as (_ & Hd & Hr).
  apply NoDup_cons in Hr as [Hx _].
  rewrite elem_of_app. intros [Hin|Hin]; [|done].
  apply (Hd _ Hin). left.
Qed.

End ListFacts.

Section Pool.

Local Open Scope list_scope.

Variable fs : filesystem.
Variable sdks : list (Z * string).
Hypothesis sdks_keys : NoDup (sdks.*1).

Lemma sdks_position (t t' : nat) (l : Z) (p p' : string) :
  sdks !! t = Some (l, p) -> sdks !! t' = Some (l, p') -> t = t' /\ p = p'.
Proof.
  intros H H'.
  assert (t = t') as <-.
  { apply (NoDup_lookup _ t t' l sdks_keys);
      rewrite list_lookup_fmap; [rewrite H | rewrite H']; reflexivity. }
  split; congruence.
Qed.

Lemma pool_inv_init : pool_inv fs sdks (pool_init sdks).
Proof.
  split; simpl.
  - reflexivity.
  - lia.
  - intros l p t H. by apply elem_of_nil in H.
  - unfold temps. simpl. constructor.
  - intros l t. rewrite lookup_empty. split; [discriminate|].
    intros (p & _ & H & _). lia.
  - intros t _. apply lookup_empty.
  - intros t l p _ H. lia.
Qed.

Lemma temps_in (st : pool) (t : nat) :
  t ∈ temps st <-> exists l p, (l, p, t) ∈ running st.
Proof.
  unfold temps. rewrite list_elem_of_fmap. split.
  - intros ([[l p] t'] & -> & H). eauto.
  - intros (l & p & H). by exists (l, p, t).
Qed.

Lemma pool_inv_start (st : pool) : pool_inv fs sdks st -> pool_inv fs sdks (start st).
Proof.
  intros Hinv. pose proof Hinv as [Hq Hn Hr Hd Ha Hf Hdone]. unfold start.
  destruct (queue st) as [|[l p] rest] eqn:Eq; [exact Hinv|].
  symmetry in Hq. apply drop_cons_inv in Hq as [Hl Hrest].
  assert (Hlt : (next_temp st < length sdks)%nat)
    by (by eapply lookup_lt_Some).
  assert (Hnew : next_temp st ∉ temps st).
  { rewrite temps_in. intros (l' & p' & Hin).
    apply Hr in Hin as [_ Hin]. lia. }
  assert (Ht : forall t,
             (t ∈ (running st ++ [(l, p, next_temp st)]).*2)
             <-> (t ∈ temps st \/ t = next_temp st)).
  { intros t. rewrite fmap_app, elem_of_app. simpl.
    rewrite list_elem_of_singleton. reflexivity. }
  split; cbn [queue running next_temp temp_files sdk_archives].
  - exact Hrest.
  - lia.
  - intros l' p' t Hin. apply elem_of_app in Hin as [Hin|Hin].
    + apply Hr in Hin as [? ?]. split; [done | lia].
    + apply list_elem_of_singleton in Hin. simplify_eq. split; [done | lia].
  - unfold temps. cbn [running]. rewrite fmap_app. apply NoDup_app.
    split_and!; [exact Hd | | apply NoDup_singleton].
    intros t Hin Hin'. apply list_elem_of_singleton in Hin'. by subst.
  - intros l' t. rewrite Ha. unfold temps at 2. cbn [running].
    split; intros (p' & Hs & Hlt' & Hnin & Hp); exists p'.
    + split_and!; [done | lia | | done]. rewrite Ht. intros [?|?]; [done | lia].
    + rewrite Ht in Hnin.
      split_and!; [done | | tauto | done].
      destruct (decide (t = next_temp st)); [tauto | lia].
  - intros t Hle. rewrite lookup_insert_ne by lia. apply Hf. lia.
  - intros t l' p' Hs Hlt' Hnin. unfold temps in Hnin. cbn [running] in Hnin.
    rewrite Ht in Hnin.
    assert (t <> next_temp st) by tauto.
    rewrite lookup_insert_ne by done. apply (Hdone t l' p' Hs); [lia | tauto].
Qed.

Lemma pool_inv_finish (i : nat) (st : pool) :
  pool_inv fs sdks st -> pool_inv fs sdks (finish fs i st).
Proof.
  intros Hinv. pose proof Hinv as [Hq Hn Hr Hd Ha Hf Hdone]. unfold finish.
  destruct (running st !! i) as [[[l p] t]|] eqn:Ei; [|exact Hinv].
  assert (Hin : (l, p, t) ∈ running st) by (by eapply list_elem_of_lookup_2).
  destruct (Hr _ _ _ Hin) as [Hs Hlt].
  assert (Eti : temps st !! i = Some t).
  { unfold temps. by rewrite list_lookup_fmap, Ei. }
  assert (Hdel : (delete i (running st)).*2 = delete i (temps st)).
  { unfold temps. by rewrite list_fmap_delete. }
  assert (Ht : forall x, x ∈ temps st <-> x = t \/ x ∈ delete i (temps st))
    by (intros x; by apply elem_of_delete_lookup).
  assert (Hgone : t ∉ delete i (temps st))
    by (by apply NoDup_delete_lookup).
  assert (Ep : package_sdk_source fs p
               = (archive_of fs p, snd (package_sdk_source fs p))).
  { unfold archive_of. by destruct (package_sdk_source fs p). }
  rewrite Ep.
  split; cbn [queue running next_temp temp_files sdk_archives].
  - exact Hq.
  - exact Hn.
  - intros l' p' t' Hin'. apply Hr. by eapply list_elem_of_delete_inv.
  - unfold temps. cbn [running]. rewrite Hdel.
    eapply sublist_NoDup; [exact Hd | apply sublist_delete].
  - intros l' t'. unfold temps. cbn [running]. rewrite Hdel.
    assert (Hold : sdk_archives st !! l' = Some t' <->
                   exists p', sdks !! t' = Some (l', p')
                     /\ (t' < next_temp st)%nat
                     /\ t' <> t /\ (t' ∉ delete i (temps st))
                     /\ packs fs p' = true).
    { rewrite Ha. split.
      - intros (p' & H1 & H2 & Hx & H4). rewrite Ht in Hx.
        exists p'. split_and!; try done; tauto.
      - intros (p' & H1 & H2 & Hne & Hx & H4).
        exists p'. rewrite Ht. split_and!; try done; tauto. }
    destruct (snd (package_sdk_source fs p)) as [e|] eqn:Es.
    + rewrite Hold. split.
      * intros (p' & H1 & H2 & Hne & Hx & H4). exists p'. tauto.
      * intros (p' & H1 & H2 & Hx & H4). exists p'. split_and!; try done.
        intros ->. rewrite Hs in H1. simplify_eq.
        unfold packs in H4. by rewrite Es in H4.
    + destruct (decide (l' = l)) as [->|Hne].
      * rewrite lookup_insert_eq. split.
        -- intros [= <-]. exists p. split_and!; try done.
           unfold packs. by rewrite Es.
        -- intros (p' & H1 & _).
           destruct (sdks_position _ _ _ _ _ Hs H1) as [-> _]. reflexivity.
      * rewrite lookup_insert_ne by done. rewrite Hold. split.
        -- intros (p' & H1 & H2 & Hne' & Hx & H4). exists p'. tauto.
        -- intros (p' & H1 & H2 & Hx & H4). exists p'. split_and!; try done.
           intros ->. rewrite Hs in H1. congruence.
  - intros t' Hle. rewrite lookup_insert_ne by lia. by apply Hf.
  - intros t' l' p' Hs' Hlt' Hnin. unfold temps in Hnin.
    cbn [running] in Hnin. rewrite Hdel in Hnin.
    destruct (decide (t' = t)) as [->|Hne].
    + rewrite lookup_insert_eq. rewrite Hs in Hs'. by simplify_eq.
    + rewrite lookup_insert_ne by done. apply (Hdone t' l' p' Hs' Hlt').
      rewrite Ht. tauto.
Qed.

Lemma pool_inv_step (workers pick : nat) (st : pool) :
  pool_inv fs sdks st -> pool_inv fs sdks (pool_step fs workers pick st).
Proof.
  intros H. unfold pool_step.
  repeat case_match; auto using pool_inv_start, pool_inv_finish.
Qed.

Lemma pool_inv_run (workers fuel : nat) :
  forall schedule st,
    pool_inv fs sdks st ->
    pool_inv fs sdks (run_pool fs workers schedule fuel st).
Proof.
  induction fuel as [|fuel IH]; intros schedule st H; simpl; [done|].
  apply IH. by apply pool_inv_step.
Qed.

Lemma pool_step_remaining (workers pick : nat) (st : pool) :
  (0 < workers)%nat ->
  remaining (pool_step fs workers pick st) = pred (remaining st).
Proof.
  intros Hw. unfold pool_step, remaining.
  destruct (bool_decide (queue st = [])) eqn:Eq; cbn [negb andb].
  - apply bool_decide_eq_true in Eq.
    rewrite Nat.add_0_r.
    destruct (length (running st) =? 0)%nat eqn:E0.
    + apply Nat.eqb_eq in E0. rewrite Eq, E0. reflexivity.
    + apply Nat.eqb_neq in E0.
      assert (Hlt : (pick mod length (running st)
                     < length (running st))%nat)
        by (apply Nat.mod_upper_bound; lia).
      destruct (Nat.ltb_spec (pick mod length (running st))
                             (length (running st))); [|lia].
      unfold finish.
      destruct (lookup_lt_is_Some_2 (running st) _ Hlt) as [[[l p] t] Ei].
      rewrite Ei. destruct (package_sdk_source fs p) as [ms r].
      cbn [queue running]. rewrite length_delete by eauto. lia.
  - apply bool_decide_eq_false in Eq.
    destruct (queue st) as [|[l p] rest] eqn:Eqq; [done|].
    destruct (length (running st) <? workers)%nat eqn:Ew.
    + replace (length (running st) + 1 =? 0)%nat with false
        by (symmetry; apply Nat.eqb_neq; lia).
      destruct (Nat.ltb_spec (pick mod (length (running st) + 1))
                             (length (running st))) as [Hlt|Hge].
      * unfold finish.
        destruct (lookup_lt_is_Some_2 (running st) _ Hlt) as [[[l' p'] t] Ei].
        rewrite Ei. destruct (package_sdk_source fs p') as [ms r].
        cbn [queue running]. rewrite Eqq, length_delete by eauto.
        cbn [length]. lia.
      * unfold start. rewrite Eqq. cbn [queue running].
        rewrite length_app. cbn [length]. lia.
    + apply Nat.ltb_ge in Ew. rewrite Nat.add_0_r.
      replace (length (running st) =? 0)%nat with false
        by (symmetry; apply Nat.eqb_neq; lia).
      assert (Hlt : (pick mod length (running st)
                     < length (running st))%nat)
        by (apply Nat.mod_upper_bound; lia).
      destruct (Nat.ltb_spec (pick mod length (running st))
                             (length (running st))); [|lia].
      unfold finish.
      destruct (lookup_lt_is_Some_2 (running st) _ Hlt) as [[[l' p'] t] Ei].
      rewrite Ei. destruct (package_sdk_source fs p') as [ms r].
      cbn [queue running]. rewrite Eqq, length_delete by eauto.
      cbn [length]. lia.
Qed.

Lemma run_pool_remaining (workers fuel : nat) :
  (0 < workers)%nat ->
  forall schedule st,
    remaining (run_pool fs workers schedule fuel st)
    = (remaining st - fuel)%nat.
Proof.
  intros Hw. induction fuel as [|fuel IH]; intros schedule st; simpl.
  - lia.
  - rewrite IH, pool_step_remaining by done. lia.
Qed.

(** The pool after the [with] block: every item has been picked up and
    every worker has returned, whatever the schedule and the number of
    workers. *)
Lemma pack_all_quiescent (workers : nat) (schedule : list nat) :
  (0 < workers)%nat ->
  queue (pack_all fs workers schedule sdks) = []
  /\ running (pack_all fs workers schedule sdks) = [].
Proof.
  intros Hw.
  pose proof (run_pool_remaining workers (2 * length sdks) Hw schedule
                (pool_init sdks)) as H.
  fold (pack_all fs workers schedule sdks) in H.
  unfold remaining in H at 2. cbn [pool_init queue running length] in H.
  unfold remaining in H.
  destruct (queue _), (running _); cbn [length] in H; try lia. done.
Qed.

(** What the workers leave behind. *)
Lemma pack_all_done (workers : nat) (schedule : list nat) :
  (0 < workers)%nat ->
  let st := pack_all fs workers schedule sdks in
  (forall l t,
     sdk_archives st !! l = Some t <->
     exists p, sdks !! t = Some (l, p) /\ packs fs p = true)
  /\ (forall t l p,
        sdks !! t = Some (l, p) -> temp_files st !! t = Some (archive_of fs p))
  /\ (forall t, (length sdks <= t)%nat -> temp_files st !! t = None).
Proof.
  intros Hw st.
  destruct (pack_all_quiescent workers schedule Hw) as [Hq Hr].
  fold st in Hq, Hr.
  assert (Hinv : pool_inv fs sdks st) by (apply pool_inv_run, pool_inv_init).
  destruct Hinv as [Hq' Hn _ _ Ha Hf Hdone].
  assert (En : next_temp st = length sdks).
  { rewrite Hq in Hq'. symmetry in Hq'.
    apply (f_equal length) in Hq'. rewrite length_drop in Hq'.
    cbn [length] in Hq'. lia. }
  assert (Ht : forall t, t ∉ temps st).
  { intros t. unfold temps. rewrite Hr. apply not_elem_of_nil. }
  split_and!.
  - intros l t. rewrite Ha. split; intros (p & H); exists p.
    + tauto.
    + destruct H as [Hs Hp]. split_and!; try done.
      rewrite En. by eapply lookup_lt_Some.
  - intros t l p Hs. apply (Hdone t l p Hs); [|done].
    rewrite En. by eapply lookup_lt_Some.
  - intros t Hle. apply Hf. lia.
Qed.

Lemma pack_all_next_temp (workers : nat) (schedule : list nat) :
  (0 < workers)%nat ->
  next_temp (pack_all fs workers schedule sdks) = length sdks.
Proof.
  intros Hw.
  destruct (pack_all_quiescent workers schedule Hw) as [Hq _].
  assert (Hinv : pool_inv fs sdks (pack_all fs workers schedule sdks))
    by (apply pool_inv_run, pool_inv_init).
  destruct Hinv as [Hq' Hn _ _ _ _ _].
  rewrite Hq in Hq'. symmetry in Hq'.
  apply (f_equal length) in Hq'. rewrite length_drop in Hq'.
  cbn [length] in Hq'. lia.
Qed.

(** The state in which the workers leave the pool does not depend on
    their number or on the order in which they ran. *)
Lemma pack_all_deterministic (workers workers' : nat)
    (schedule schedule' : list nat) :
  (0 < workers)%nat -> (0 < workers')%nat ->
  pack_all fs workers schedule sdks = pack_all fs workers' schedule' sdks.
Proof.
  intros Hw Hw'.
  destruct (pack_all_quiescent workers schedule Hw) as [Hq Hr].
  destruct (pack_all_quiescent workers' schedule' Hw') as [Hq' Hr'].
  pose proof (pack_all_next_temp workers schedule Hw) as Hn.
  pose proof (pack_all_next_temp workers' schedule' Hw') as Hn'.
  destruct (pack_all_done workers schedule Hw) as (Ha & Ht & Hf).
  destruct (pack_all_done workers' schedule' Hw') as (Ha' & Ht' & Hf').
  destruct (pack_all fs workers schedule sdks) as [q r n tf sa].
  destruct (pack_all fs workers' schedule' sdks) as [q' r' n' tf' sa'].
  cbn [queue running next_temp temp_files sdk_archives] in *.
  subst q r n q' r' n'. f_equal.
  - apply map_eq. intros t.
    destruct (sdks !! t) as [[l p]|] eqn:E.
    + by rewrite (Ht t l p E), (Ht' t l p E).
    + apply lookup_ge_None in E. by rewrite Hf, Hf'.
  - apply map_eq. intros l. apply option_eq. intros t.
    by rewrite Ha, Ha'.
Qed.

End Pool.

(** ** The final archive *)

Section Frame.

Local Open Scope list_scope.

Variable fs : filesystem.
Variable render : string -> result string.

Lemma disk_app_nil (d : disk) :
  {| output := output d ++ []; temporaries := temporaries d |} = d.
Proof. destruct d. simpl. by rewrite app_nil_r. Qed.

Lemma zip_write_appends (path arcname : string) :
  appends (zip_write fs path arcname).
Proof.
  intros d. unfold zip_write. destruct (fs_open fs path); simpl.
  - reflexivity.
  - by rewrite disk_app_nil.
Qed.

Lemma zip_writestr_appends (arcname path : string) :
  appends (zip_writestr render arcname path).
Proof.
  intros d. unfold zip_writestr. destruct (render path); simpl.
  - reflexivity.
  - by rewrite disk_app_nil.
Qed.

Lemma and_then_appends (f g : disk -> result unit * disk) :
  appends f -> appends g -> appends (and_then f g).
Proof.
  intros Hf Hg d. unfold and_then.
  rewrite (Hf d). destruct (f empty_disk) as [[[]|e] d1]; cbn [fst snd].
  - rewrite (Hg {| output := output d ++ output d1;
                   temporaries := temporaries d |}).
    rewrite (Hg d1). cbn [fst snd output temporaries].
    by rewrite app_assoc.
  - reflexivity.
Qed.

Lemma write_assets_appends (assets : string) :
  appends (write_assets fs render assets).
Proof.
  unfold write_assets.
  repeat apply and_then_appends;
    auto using zip_write_appends, zip_writestr_appends.
Qed.

End Frame.

Section Levels.

Local Open Scope list_scope.

Variable archives : gmap Z nat.
Variable payload_of : Z -> list member.

Lemma lookup_unlink_out (levels : list Z) (t : nat) :
  forall m,
    (forall l, l ∈ levels -> archives !! l <> Some t) ->
    unlink archives levels m !! t = m !! t.
Proof.
  induction levels as [|l rest IH]; intros m H; simpl; [reflexivity|].
  rewrite IH by (intros l' Hl'; apply H; by right).
  destruct (archives !! l) as [t'|] eqn:E; [|reflexivity].
  apply lookup_delete_ne. intros ->. apply (H l); [left | done].
Qed.

Lemma lookup_unlink_None (levels : list Z) (t : nat) :
  forall m, m !! t = None -> unlink archives levels m !! t = None.
Proof.
  induction levels as [|l rest IH]; intros m H; simpl; [done|].
  apply IH. destruct (archives !! l); [|done].
  apply lookup_delete_None. by right.
Qed.

Lemma lookup_unlink_in (levels : list Z) (t : nat) (l : Z) :
  forall m,
    l ∈ levels -> archives !! l = Some t ->
    unlink archives levels m !! t = None.
Proof.
  induction levels as [|l' rest IH]; intros m Hin Ha.
  - by apply elem_of_nil in Hin.
  - simpl. apply elem_of_cons in Hin as [<-|Hin]; [|by apply IH].
    rewrite Ha. apply lookup_unlink_None, lookup_delete_eq.
Qed.

Lemma write_levels_app (lo hi : list Z) :
  forall d,
    write_levels archives (lo ++ hi) d =
    and_then (write_levels archives lo) (write_levels archives hi) d.
Proof.
  induction lo as [|l lo IH]; intros d; simpl.
  - reflexivity.
  - unfold and_then. cbn [write_levels].
    destruct (archives !! l) as [t|]; [|reflexivity].
    destruct (temporaries d !! t) as [ms|]; [|reflexivity].
    apply IH.
Qed.

(** The loop over levels that were all published. *)
Lemma write_levels_published (levels : list Z) :
  NoDup levels ->
  (forall l l' t,
     archives !! l = Some t -> archives !! l' = Some t -> l = l') ->
  forall d,
    (forall l, l ∈ levels ->
       exists t, archives !! l = Some t
                 /\ temporaries d !! t = Some (payload_of l)) ->
    write_levels archives levels d =
    (Ok tt, {| output := output d ++ (level_member payload_of <$> levels);
               temporaries := unlink archives levels (temporaries d) |}).
Proof.
  intros Hn Hinj. induction Hn as [|l levels Hl Hn IH]; intros d H.
  - simpl. by rewrite app_nil_r; destruct d.
  - destruct (H l) as (t & Ha & Ht); [left|].
    cbn [write_levels unlink]. rewrite Ha, Ht.
    rewrite IH.
    + cbn [output temporaries fmap list_fmap].
      by rewrite <- app_assoc.
    + intros l' Hl'. destruct (H l') as (t' & Ha' & Ht'); [by right|].
      exists t'. split; [done|]. cbn [temporaries].
      rewrite lookup_delete_ne; [done|].
      intros ->. apply Hl. by rewrite (Hinj _ _ _ Ha Ha').
Qed.

(** The loop stops at the first level that was not published. *)
Lemma write_levels_unpublished (lo hi : list Z) (m : Z) :
  NoDup lo ->
  (forall l l' t,
     archives !! l = Some t -> archives !! l' = Some t -> l = l') ->
  archives !! m = None ->
  forall d,
    (forall l, l ∈ lo ->
       exists t, archives !! l = Some t
                 /\ temporaries d !! t = Some (payload_of l)) ->
    write_levels archives (lo ++ m :: hi) d =
    (Raise (KeyError m),
     {| output := output d ++ (level_member payload_of <$> lo);
        temporaries := unlink archives lo (temporaries d) |}).
Proof.
  intros Hn Hinj Hm d H.
  rewrite write_levels_app. unfold and_then.
  rewrite (write_levels_published lo Hn Hinj d H).
  cbn [write_levels]. by rewrite Hm.
Qed.

(** Whatever happens, the members written are those of an initial part
    of [levels], in the order of [levels]. *)
Lemma write_levels_prefix (levels : list Z) :
  forall d,
    exists k members,
      output (snd (write_levels archives levels d)) = output d ++ members
      /\ fst <$> members = level_name <$> take k levels.
Proof.
  induction levels as [|l levels IH]; intros d.
  - exists 0%nat, []. by rewrite app_nil_r.
  - cbn [write_levels].
    destruct (archives !! l) as [t|];
      [|exists 0%nat, []; by rewrite app_nil_r].
    destruct (temporaries d !! t) as [ms|];
      [|exists 0%nat, []; by rewrite app_nil_r].
    destruct (IH {| output := output d ++ [(level_name l, Packed ms)];
                    temporaries := delete t (temporaries d) |})
      as (k & members & Ho & Hm).
    exists (S k), ((level_name l, Packed ms) :: members).
    fold (level_name l). rewrite Ho. cbn [output]. split.
    + by rewrite <- app_assoc.
    + cbn [fmap list_fmap take fst]. f_equal. exact Hm.
Qed.

End Levels.

Section SortedLevels.

Local Open Scope list_scope.

Lemma filter_all_false (P : Z -> Prop) `{forall x, Decision (P x)}
    (l : list Z) :
  Forall (fun x => ~ P x) l -> filter P l = [].
Proof.
  induction 1 as [|x l Hx _ IH]; [reflexivity|].
  by rewrite filter_cons_False.
Qed.

Lemma filter_all_true (P : Z -> Prop) `{forall x, Decision (P x)}
    (l : list Z) :
  Forall P l -> filter P l = l.
Proof.
  induction 1 as [|x l Hx _ IH]; [reflexivity|].
  rewrite filter_cons_True by done. by rewrite IH.
Qed.

(** A sorted list without repetition splits around each of its
    elements. *)
Lemma sorted_split (m : Z) (l : list Z) :
  StronglySorted Z.le l -> NoDup l -> m ∈ l ->
  l = filter (fun x => x < m) l ++ m :: filter (fun x => m < x) l.
Proof.
  induction 1 as [|x l Hs IH Hall]; intros Hn Hin.
  - by apply elem_of_nil in Hin.
  - apply NoDup_cons in Hn as [Hx Hn].
    apply elem_of_cons in Hin as [->|Hin].
    + rewrite filter_cons_False by lia.
      rewrite (filter_cons_False (fun y => x < y)) by lia.
      rewrite filter_all_false, filter_all_true; [reflexivity| |].
      * rewrite List.Forall_forall in Hall. apply Forall_forall.
        intros y Hy. specialize (Hall y (proj1 (list_elem_of_In _ _) Hy)).
        assert (y <> x) by (intros ->; done). lia.
      * rewrite List.Forall_forall in Hall. apply Forall_forall.
        intros y Hy. specialize (Hall y (proj1 (list_elem_of_In _ _) Hy)).
        lia.
    + assert (x < m).
      { rewrite List.Forall_forall in Hall.
        specialize (Hall m (proj1 (list_elem_of_In _ _) Hin)).
        assert (m <> x) by (intros ->; done). lia. }
      rewrite filter_cons_True by done.
      rewrite (filter_cons_False (fun y => m < y)) by lia.
      simpl. f_equal. by apply IH.
Qed.

Lemma sorted_levels_sorted (sdks : list (Z * string)) :
  StronglySorted Z.le (sorted_levels sdks).
Proof. apply StronglySorted_merge_sort; apply _. Qed.

Lemma sorted_levels_perm (sdks : list (Z * string)) :
  sorted_levels sdks ≡ₚ sdks.*1.
Proof. apply merge_sort_Permutation. Qed.

(** [sorted(sdks)] depends on the set of keys only. *)
Lemma sorted_levels_proper (sdks sdks' : list (Z * string)) :
  sdks ≡ₚ sdks' -> sorted_levels sdks = sorted_levels sdks'.
Proof.
  intros H. apply (Sorted_unique Z.le).
  - apply Sorted_merge_sort; apply _.
  - apply Sorted_merge_sort; apply _.
  - rewrite !sorted_levels_perm. by rewrite H.
Qed.

End SortedLevels.

(** ** The assembled plugins archive *)

Section LevelNames.

Lemma char_in_digits (d : Decimal.uint) :
  char_in "/" (NilEmpty.string_of_uint d) = false.
Proof. induction d; simpl; auto. Qed.

Lemma char_in_str_of_Z (l : Z) : char_in "/" (str_of_Z l) = false.
Proof.
  unfold str_of_Z, NilZero.string_of_int, NilZero.string_of_uint.
  destruct (Z.to_int l) as [d|d]; destruct d; simpl;
    auto using char_in_digits.
Qed.

Lemma str_of_Z_nonempty (l : Z) : is_empty (str_of_Z l) = false.
Proof.
  unfold str_of_Z, NilZero.string_of_int, NilZero.string_of_uint.
  destruct (Z.to_int l) as [d|d]; destruct d; reflexivity.
Qed.

Lemma endswith_char_in (c : ascii) (s : string) :
  endswith (String c "") s = true -> char_in c s = true.
Proof.
  induction s as [|x s IH]; [discriminate|].
  cbn [endswith char_in]. intros H. apply orb_true_iff in H as [H|H].
  - apply String.eqb_eq in H. injection H as -> ->.
    by rewrite Ascii.eqb_refl.
  - rewrite (IH H). apply orb_true_r.
Qed.

(** The member of a level is [<level>/sources.zip]. *)
Lemma level_name_spec (l : Z) : level_name l = str_of_Z l ++ "/sources.zip".
Proof.
  unfold level_name, path_join. cbn [startswith prefix].
  rewrite str_of_Z_nonempty. cbn [orb].
  destruct (endswith "/" (str_of_Z l)) eqn:E; [|reflexivity].
  apply endswith_char_in in E. by rewrite char_in_str_of_Z in E.
Qed.

End LevelNames.

Section Assembly.

Local Open Scope list_scope.

Variable fs : filesystem.
Variable render : string -> result string.
Variable base : string.

Lemma generate_plugins_levels (sdks : list (Z * string)) (threads : Z)
    (schedule : list nat) :
  0 < threads ->
  fst (assets_written fs render base) = Ok tt ->
  generate_plugins fs render base sdks threads schedule =
  let st := pack_all fs (Z.to_nat threads) schedule sdks in
  let rd := write_levels (sdk_archives st) (sorted_levels sdks)
              {| output := static_entries fs render base;
                 temporaries := temp_files st |} in
  {| out_result := fst rd; out_archive := Some (output (snd rd));
     out_temp := temporaries (snd rd) |}.
Proof.
  intros Ht Ha. unfold generate_plugins.
  destruct (Z.leb_spec threads 0) as [|_]; [lia|].
  fold (plugin_assets base). unfold and_then.
  rewrite (write_assets_appends fs render (plugin_assets base)).
  fold (assets_written fs render base). rewrite Ha. cbn [output temporaries app].
  fold (static_entries fs render base). cbn zeta.
  by destruct (write_levels _ _ _).
Qed.

Section Published.

Variable sdks : list (Z * string).
Hypothesis sdks_keys : NoDup (sdks.*1).

Lemma directory_of_lookup (t : nat) (l : Z) (p : string) :
  sdks !! t = Some (l, p) -> directory_of sdks l = p.
Proof.
  intros H. unfold directory_of.
  apply list_elem_of_lookup_2 in H.
  apply (elem_of_list_to_map (M := gmap Z)) in H; [|done].
  by rewrite H.
Qed.

Lemma level_position (l : Z) :
  l ∈ sorted_levels sdks -> exists t p, sdks !! t = Some (l, p).
Proof.
  rewrite sorted_levels_perm. intros H.
  apply list_elem_of_fmap in H as ([l' p] & -> & H).
  apply list_elem_of_lookup in H as [t H]. eauto.
Qed.

Lemma sorted_levels_NoDup : NoDup (sorted_levels sdks).
Proof. by rewrite sorted_levels_perm. Qed.

Variable workers : nat.
Variable schedule : list nat.
Hypothesis workers_pos : (0 < workers)%nat.

Let st := pack_all fs workers schedule sdks.

Lemma archives_injective (l l' : Z) (t : nat) :
  sdk_archives st !! l = Some t -> sdk_archives st !! l' = Some t -> l = l'.
Proof.
  destruct (pack_all_done fs sdks sdks_keys workers schedule workers_pos)
    as (Ha & _ & _).
  intros H H'. apply Ha in H as (p & H & _). apply Ha in H' as (p' & H' & _).
  congruence.
Qed.

Lemma published_level (l : Z) (t : nat) (p : string) :
  sdks !! t = Some (l, p) -> packs fs p = true ->
  sdk_archives st !! l = Some t
  /\ temp_files st !! t = Some (archive_of fs (directory_of sdks l)).
Proof.
  destruct (pack_all_done fs sdks sdks_keys workers schedule workers_pos)
    as (Ha & Ht & _).
  intros H Hp. split.
  - apply Ha. eauto.
  - rewrite (directory_of_lookup t l p H). by eapply Ht.
Qed.

Lemma unpublished_level (l : Z) (p : string) :
  (l, p) ∈ sdks -> packs fs p = false -> sdk_archives st !! l = None.
Proof.
  destruct (pack_all_done fs sdks sdks_keys workers schedule workers_pos)
    as (Ha & _ & _).
  intros Hin Hp. apply list_elem_of_lookup in Hin as [t Hin].
  destruct (sdk_archives st !! l) as [t'|] eqn:E; [|reflexivity].
  apply Ha in E as (p' & E & Hp').
  destruct (sdks_position sdks sdks_keys _ _ _ _ _ Hin E) as [_ ->].
  congruence.
Qed.

End Published.

End Assembly.

Section Outcome.

Local Open Scope list_scope.

Lemma packs_true (fs : filesystem) (p : string) :
  packs fs p = true <-> snd (package_sdk_source fs p) = None.
Proof. unfold packs. destruct (snd _); split; congruence. Qed.

Lemma packs_false (fs : filesystem) (p : string) :
  packs fs p = false <-> snd (package_sdk_source fs p) <> None.
Proof. unfold packs. destruct (snd _); split; congruence. Qed.

Lemma sorted_strictly (l : list Z) :
  StronglySorted Z.le l -> NoDup l -> StronglySorted Z.lt l.
Proof.
  induction 1 as [|x l Hs IH Hall]; intros Hn; constructor.
  - apply IH. by apply NoDup_cons in Hn as [_ ?].
  - apply NoDup_cons in Hn as [Hx _].
    rewrite List.Forall_forall in *. intros y Hy.
    specialize (Hall y Hy). apply list_elem_of_In in Hy.
    assert (y <> x) by (intros ->; done). lia.
Qed.

Lemma level_entry_proper (fs : filesystem) (sdks sdks' : list (Z * string)) :
  NoDup (sdks.*1) -> sdks ≡ₚ sdks' ->
  level_entry fs sdks' = level_entry fs sdks.
Proof.
  intros Hn Hp. unfold level_entry, level_member, directory_of.
  by rewrite (list_to_map_proper (M := gmap Z) sdks sdks' Hn Hp).
Qed.

Variable fs : filesystem.
Variable render : string -> result string.
Variable base : string.
Variable sdks : list (Z * string).
Hypothesis sdks_keys : NoDup (sdks.*1).
Variable threads : Z.
Hypothesis threads_pos : 0 < threads.
Variable schedule : list nat.
Hypothesis assets_ok : fst (assets_written fs render base) = Ok tt.

Let st := pack_all fs (Z.to_nat threads) schedule sdks.

Lemma workers_pos : (0 < Z.to_nat threads)%nat.
Proof. lia. Qed.

(** The outcome does not depend on the number of workers or on their
    schedule. *)
Lemma generate_plugins_deterministic (threads' : Z) (schedule' : list nat) :
  0 < threads' ->
  generate_plugins fs render base sdks threads' schedule'
  = generate_plugins fs render base sdks threads schedule.
Proof.
  intros Ht'. unfold generate_plugins.
  destruct (Z.leb_spec threads 0) as [|_]; [lia|].
  destruct (Z.leb_spec threads' 0) as [|_]; [lia|].
  rewrite (pack_all_deterministic fs sdks sdks_keys (Z.to_nat threads')
             (Z.to_nat threads) schedule' schedule) by lia.
  reflexivity.
Qed.

(** In every run the archive holds what was written of the static
    members, followed by the members of an initial part of the sorted
    levels. *)
Lemma generate_plugins_prefix :
  exists k members,
    out_archive (generate_plugins fs render base sdks threads schedule)
    = Some (static_entries fs render base ++ members)
    /\ fst <$> members = level_name <$> take k (sorted_levels sdks).
Proof.
  clear assets_ok. unfold generate_plugins.
  destruct (Z.leb_spec threads 0) as [|_]; [lia|].
  fold (plugin_assets base). unfold and_then.
  rewrite (write_assets_appends fs render (plugin_assets base)).
  fold (assets_written fs render base). unfold static_entries.
  destruct (assets_written fs render base) as [[[]|e] d1];
    cbn [fst snd output temporaries app].
  - destruct (write_levels_prefix (sdk_archives st) (sorted_levels sdks)
                {| output := output d1; temporaries := temp_files st |})
      as (k & members & Ho & Hm).
    fold st. destruct (write_levels _ _ _) as [r d].
    exists k, members. cbn [out_archive]. cbn [snd output] in Ho.
    by rewrite Ho.
  - exists 0%nat, []. cbn [out_archive]. by rewrite app_nil_r.
Qed.

(** Every task succeeds. *)
Lemma generate_plugins_all_packed :
  (forall l p, (l, p) ∈ sdks -> snd (package_sdk_source fs p) = None) ->
  generate_plugins fs render base sdks threads schedule =
  {| out_result := Ok tt;
     out_archive :=
       Some (static_entries fs render base
             ++ (level_entry fs sdks <$> sorted_levels sdks));
     out_temp := ∅ |}.
Proof.
  intros Hall.
  rewrite generate_plugins_levels by done. cbn zeta. fold st.
  rewrite (write_levels_published (sdk_archives st)
             (fun l => archive_of fs (directory_of sdks l))).
  - cbn [fst snd output temporaries]. f_equal.
    apply map_eq. intros t. rewrite lookup_empty.
    destruct (sdks !! t) as [[l p]|] eqn:E.
    + apply (lookup_unlink_in _ _ t l).
      * rewrite sorted_levels_perm. apply list_elem_of_fmap.
        exists (l, p). split; [done|]. by eapply list_elem_of_lookup_2.
      * apply (published_level fs sdks sdks_keys _ schedule workers_pos
                 l t p E).
        apply packs_true, (Hall l). by eapply list_elem_of_lookup_2.
    + apply lookup_unlink_None.
      apply (pack_all_done fs sdks sdks_keys _ schedule workers_pos).
      by apply lookup_ge_None.
  - by apply sorted_levels_NoDup.
  - apply (archives_injective fs sdks sdks_keys _ schedule workers_pos).
  - intros l Hl. cbn [temporaries].
    destruct (level_position sdks l Hl) as (t & p & E).
    exists t.
    apply (published_level fs sdks sdks_keys _ schedule workers_pos l t p E).
    apply packs_true, (Hall l). by eapply list_elem_of_lookup_2.
Qed.

(** The task of level [m] fails and no task of a smaller level does. *)
Lemma generate_plugins_first_failure (m : Z) (pm : string) :
  (m, pm) ∈ sdks ->
  snd (package_sdk_source fs pm) <> None ->
  (forall l p, (l, p) ∈ sdks -> snd (package_sdk_source fs p) <> None ->
               m <= l) ->
  let lo := filter (fun l => l < m) (sorted_levels sdks) in
  generate_plugins fs render base sdks threads schedule =
  {| out_result := Raise (KeyError m);
     out_archive :=
       Some (static_entries fs render base ++ (level_entry fs sdks <$> lo));
     out_temp := unlink (sdk_archives st) lo (temp_files st) |}.
Proof.
  intros Hm Hfail Hmin lo.
  assert (Hin : m ∈ sorted_levels sdks).
  { rewrite sorted_levels_perm. apply list_elem_of_fmap. by exists (m, pm). }
  assert (E : write_levels (sdk_archives st) (sorted_levels sdks)
                {| output := static_entries fs render base;
                   temporaries := temp_files st |}
              = (Raise (KeyError m),
                 {| output := static_entries fs render base
                              ++ (level_entry fs sdks <$> lo);
                    temporaries := unlink (sdk_archives st) lo
                                          (temp_files st) |})).
  { rewrite (sorted_split m (sorted_levels sdks)
               (sorted_levels_sorted sdks)
               (sorted_levels_NoDup sdks sdks_keys) Hin) at 1.
    fold lo.
    rewrite (write_levels_unpublished (sdk_archives st)
               (fun l => archive_of fs (directory_of sdks l))).
    - reflexivity.
    - apply NoDup_filter. by apply sorted_levels_NoDup.
    - apply (archives_injective fs sdks sdks_keys _ schedule workers_pos).
    - apply (unpublished_level fs sdks sdks_keys _ schedule workers_pos
               m pm Hm).
      by apply packs_false.
    - intros l Hl. cbn [temporaries].
      apply list_elem_of_filter in Hl as [Hlt Hl].
      destruct (level_position sdks l Hl) as (t & p & E).
      exists t.
      apply (published_level fs sdks sdks_keys _ schedule workers_pos
               l t p E).
      destruct (packs fs p) eqn:Ep; [reflexivity|].
      apply packs_false in Ep.
      specialize (Hmin l p (list_elem_of_lookup_2 _ _ _ E) Ep). lia. }
  rewrite generate_plugins_levels by done. cbn zeta. fold st.
  by rewrite E.
Qed.

(** The temporary files after such a run: those of the levels below [m]
    are unlinked, all the others are still on disk. *)
Lemma first_failure_temporaries (m : Z) (t : nat) (l : Z) (p : string) :
  (forall l p, (l, p) ∈ sdks -> snd (package_sdk_source fs p) <> None ->
               m <= l) ->
  sdks !! t = Some (l, p) ->
  unlink (sdk_archives st) (filter (fun l => l < m) (sorted_levels sdks))
         (temp_files st) !! t
  = if decide (l < m) then None else Some (archive_of fs p).
Proof.
  intros Hmin E.
  destruct (pack_all_done fs sdks sdks_keys _ schedule workers_pos)
    as (Hpub & Htemp & _).
  fold st in Hpub, Htemp.
  assert (Hl : l ∈ sorted_levels sdks).
  { rewrite sorted_levels_perm. apply list_elem_of_fmap.
    exists (l, p). split; [done|]. by eapply list_elem_of_lookup_2. }
  destruct (decide (l < m)) as [Hlt|Hge].
  - apply (lookup_unlink_in _ _ t l).
    + by apply list_elem_of_filter.
    + apply (published_level fs sdks sdks_keys _ schedule workers_pos l t p E).
      destruct (packs fs p) eqn:Ep; [reflexivity|].
      apply packs_false in Ep.
      specialize (Hmin l p (list_elem_of_lookup_2 _ _ _ E) Ep). lia.
  - rewrite lookup_unlink_out.
    + by eapply Htemp.
    + intros l' Hl' Ha. apply list_elem_of_filter in Hl' as [Hlt _].
      apply Hpub in Ha as (p' & E' & _).
      rewrite E in E'. simplify_eq. lia.
Qed.

End Outcome.

(** C1.  The per-level members of the plugins archive are written in
    ascending numeric order of the API levels, each under
    [<level>/sources.zip].  [sorted(sdks)] is strictly ascending, holds
    the levels of the catalog and depends on their set only.  In every
    run the archive holds, after what was written of the static members,
    the members of an initial part of the sorted levels, and the outcome
    is the same for every positive number of workers and every schedule.
    When the assets are written and every packaging task succeeds, the
    run returns normally, every level has its member, with the packaged
    directory of the level, no temporary file is left, and the outcome
    is also the same for every order of the catalog. *)
Theorem plugin_members_in_level_order
    (fs : filesystem) (render : string -> result string) (base : string)
    (sdks sdks' : list (Z * string)) (threads threads' : Z)
    (schedule schedule' : list nat) :
  NoDup (sdks.*1) ->
  sdks ≡ₚ sdks' ->
  0 < threads -> 0 < threads' ->
  let o := generate_plugins fs render base sdks threads schedule in
  let name := fun l => str_of_Z l ++ "/sources.zip" in
  let members := level_entry fs sdks <$> sorted_levels sdks in
  (StronglySorted Z.lt (sorted_levels sdks)
   /\ sorted_levels sdks ≡ₚ sdks.*1
   /\ sorted_levels sdks' = sorted_levels sdks)
  /\ (exists k written,
        out_archive o = Some (static_entries fs render base ++ written)%list
        /\ fst <$> written = name <$> take k (sorted_levels sdks))
  /\ generate_plugins fs render base sdks threads' schedule' = o
  /\ (fst (assets_written fs render base) = Ok tt ->
      (forall l p, (l, p) ∈ sdks -> snd (package_sdk_source fs p) = None) ->
      out_result o = Ok tt
      /\ out_archive o = Some (static_entries fs render base ++ members)%list
      /\ fst <$> members = name <$> sorted_levels sdks
      /\ out_temp o = ∅
      /\ generate_plugins fs render base sdks' threads' schedule' = o).
Proof.
  intros Hn Hp Ht Ht' o name members.
  assert (Hname : forall l, level_name l = name l) by apply level_name_spec.
  split_and!.
  - apply sorted_strictly;
      [apply sorted_levels_sorted | by apply sorted_levels_NoDup].
  - apply sorted_levels_perm.
  - symmetry. by apply sorted_levels_proper.
  - destruct (generate_plugins_prefix fs render base sdks threads Ht schedule)
      as (k & written & Ho & Hw).
    exists k, written. split; [exact Ho|].
    rewrite Hw. apply list_fmap_ext. intros i l _. apply Hname.
  - by apply generate_plugins_deterministic.
  - intros Ha Hall.
    assert (Hn' : NoDup (sdks'.*1)) by (by rewrite <- Hp).
    assert (Hall' : forall l p,
               (l, p) ∈ sdks' -> snd (package_sdk_source fs p) = None).
    { intros l p Hin. apply (Hall l). by rewrite Hp. }
    assert (Eo : o = {| out_result := Ok tt;
                        out_archive :=
                          Some (static_entries fs render base
                                ++ members)%list;
                        out_temp := ∅ |})
      by (by apply generate_plugins_all_packed).
    assert (Eo' : generate_plugins fs render base sdks' threads' schedule'
                  = o).
    { rewrite generate_plugins_all_packed by done.
      rewrite Eo. unfold members.
      by rewrite <- (sorted_levels_proper sdks sdks' Hp),
                 (level_entry_proper fs sdks sdks' Hn Hp). }
    rewrite Eo' , Eo. cbn [out_result out_archive out_temp].
    split_and!; try done.
    unfold members. rewrite <- list_fmap_compose.
    apply list_fmap_ext. intros i l _. cbn. apply Hname.
Qed.

Lemma plugin_members_in_level_order_witness :
  let sdks := [(3, "d3"); (1, "d1")] in
  let sdks' := [(1, "d1"); (3, "d3")] in
  NoDup (sdks.*1)
  /\ sdks ≡ₚ sdks'
  /\ sorted_levels sdks' = sorted_levels sdks
  /\ generate_plugins four_sdks plain_render "base" sdks 7 [1; 0; 2]%nat
     = generate_plugins four_sdks plain_render "base" sdks 1 []
  /\ out_result (generate_plugins four_sdks plain_render "base" sdks 1 [])
     = Ok tt
  /\ generate_plugins four_sdks plain_render "base" sdks' 7 [1; 0; 2]%nat
     = generate_plugins four_sdks plain_render "base" sdks 1 [].
Proof.
  intros sdks sdks'.
  assert (Hn : NoDup (sdks.*1)).
  { apply NoDup_cons. split; [|apply NoDup_singleton].
    intros H. apply list_elem_of_singleton in H. discriminate. }
  assert (Hp : sdks ≡ₚ sdks') by apply perm_swap.
  assert (Ha : fst (assets_written four_sdks plain_render "base") = Ok tt)
    by reflexivity.
  assert (Hall : forall l p, (l, p) ∈ sdks ->
                   snd (package_sdk_source four_sdks p) = None).
  { intros l p H. apply elem_of_cons in H as [H|H]; [by simplify_eq|].
    apply list_elem_of_singleton in H. by simplify_eq. }
  pose proof (plugin_members_in_level_order four_sdks plain_render "base"
                sdks sdks' 1 7 [] [1; 0; 2]%nat Hn Hp
                ltac:(reflexivity) ltac:(reflexivity)) as H.
  cbv zeta in H. destruct H as ((_ & _ & Hs) & _ & Hd & H).
  destruct (H Ha Hall) as (H1 & _ & _ & _ & H5).
  split_and!; assumption.
Defined.

(** The order is numeric: the member of level 3 comes before that of
    level 12. *)
Example plugin_members_numeric_order :
  out_archive
    (generate_plugins four_sdks plain_render "base"
       [(12, "d3"); (3, "d1")] 2 [1; 1; 0]%nat)
  = Some [("about.html", Copied ["asset"]); ("about.ini", Copied ["asset"]);
          ("about.mappings", Copied ["asset"]);
          ("android_32x32.png", Copied ["asset"]);
          ("about.properties", Text "text");
          ("META-INF/MANIFEST.MF", Text "text");
          ("icons/android_32x32.png", Copied ["asset"]);
          ("3/sources.zip", Packed [("a.txt", ["x"])]);
          ("12/sources.zip", Packed [("c.txt", ["y"])])].
Proof. reflexivity. Qed.

(** C2, as stated, fails on the catalog of the levels 4, 3, 1, 2 in
    which the tasks of 2 and 4 fail: the exception is the [KeyError] of
    level 2 alone, the archive is closed with the static members and the
    member of level 1, and the temporary files of the levels 2, 3 and 4
    stay on disk. *)
Lemma failed_task_counterexample :
  let o := generate_plugins four_sdks plain_render "base"
             [(4, "d4"); (3, "d3"); (1, "d1"); (2, "d2")] 2 [1; 0; 5]%nat in
  out_result o = Raise (KeyError 2)
  /\ (fst <$> default [] (out_archive o))
     = ["about.html"; "about.ini"; "about.mappings"; "android_32x32.png";
        "about.properties"; "META-INF/MANIFEST.MF";
        "icons/android_32x32.png"; "1/sources.zip"]
  /\ out_temp o !! 0%nat = Some []
  /\ out_temp o !! 1%nat = Some [("c.txt", ["y"])]
  /\ out_temp o !! 2%nat = None
  /\ out_temp o !! 3%nat = Some []
  /\ ~ clean_abort [2; 4] o.
Proof.
  intros o. split_and!; try reflexivity.
  intros (H & _). vm_compute in H. discriminate.
Qed.

(** A static asset that cannot be written ends the run inside the
    [with] block of the archive, before the loop over the levels: the
    exception is that of the asset, the archive is closed with the
    static members written so far and the temporary files are as the
    workers left them. *)
Lemma generate_plugins_assets_failure
    (fs : filesystem) (render : string -> result string) (base : string)
    (sdks : list (Z * string)) (threads : Z) (schedule : list nat)
    (e : exn) :
  0 < threads ->
  fst (assets_written fs render base) = Raise e ->
  generate_plugins fs render base sdks threads schedule
  = {| out_result := Raise e;
       out_archive := Some (static_entries fs render base);
       out_temp :=
         temp_files (pack_all fs (Z.to_nat threads) schedule sdks) |}.
Proof.
  intros Ht Ha. unfold generate_plugins.
  destruct (Z.leb_spec threads 0) as [|_]; [lia|].
  fold (plugin_assets base). unfold and_then.
  rewrite (write_assets_appends fs render (plugin_assets base)).
  fold (assets_written fs render base). unfold static_entries.
  destruct (assets_written fs render base) as [r d1].
  cbn [fst] in Ha. subst r.
  cbn [fst snd output temporaries app]. reflexivity.
Qed.

(** C2, amended.  The task of level [m] is the failing task of the
    smallest level.  When the static assets are written,
    [generate_plugins] raises after the workers are done, and what it
    raises is the [KeyError] of [m]; the archive is closed with the
    static members and the members of the levels below [m] in ascending
    order, so it has no member for a failed task; the temporary files of
    the levels below [m] are unlinked and those of [m] and of every
    level above it stay on disk.  When a static asset cannot be written,
    [generate_plugins] raises the exception of that asset instead, also
    after the workers are done: the archive is closed with the static
    members written before it and without a member of any level, and the
    temporary file of every task stays on disk. *)
Theorem failed_task_aborts_at_its_level
    (fs : filesystem) (render : string -> result string) (base : string)
    (sdks : list (Z * string)) (threads : Z) (schedule : list nat)
    (m : Z) (pm : string) :
  NoDup (sdks.*1) ->
  0 < threads ->
  (m, pm) ∈ sdks ->
  snd (package_sdk_source fs pm) <> None ->
  (forall l p, (l, p) ∈ sdks -> snd (package_sdk_source fs p) <> None ->
               m <= l) ->
  let o := generate_plugins fs render base sdks threads schedule in
  match fst (assets_written fs render base) with
  | Ok _ =>
      out_result o = Raise (KeyError m)
      /\ out_archive o
         = Some (static_entries fs render base
                 ++ (level_entry fs sdks
                       <$> filter (fun l => l < m) (sorted_levels sdks)))%list
      /\ (forall t l p,
            sdks !! t = Some (l, p) ->
            out_temp o !! t
            = if decide (l < m) then None
              else Some (fst (package_sdk_source fs p)))
  | Raise e =>
      out_result o = Raise e
      /\ out_archive o = Some (static_entries fs render base)
      /\ (forall t l p,
            sdks !! t = Some (l, p) ->
            out_temp o !! t = Some (fst (package_sdk_source fs p)))
  end.
Proof.
  intros Hn Ht Hm Hfail Hmin o. unfold o.
  destruct (fst (assets_written fs render base)) as [[]|e] eqn:Ha.
  - rewrite (generate_plugins_first_failure fs render base sdks Hn threads Ht
               schedule Ha m pm Hm Hfail Hmin).
    cbn [out_result out_archive out_temp]. split_and!; try reflexivity.
    intros t l p E.
    by apply (first_failure_temporaries fs sdks Hn threads Ht schedule
                m t l p).
  - rewrite (generate_plugins_assets_failure fs render base sdks threads
               schedule e Ht Ha).
    cbn [out_result out_archive out_temp]. split_and!; try reflexivity.
    intros t l p E.
    pose proof (pack_all_done fs sdks Hn (Z.to_nat threads) schedule
                  ltac:(lia)) as Hd.
    cbv zeta in Hd. destruct Hd as (_ & Hd & _).
    exact (Hd t l p E).
Qed.

Lemma failed_task_aborts_at_its_level_witness :
  let sdks := [(4, "d4"); (3, "d3"); (1, "d1"); (2, "d2")] in
  let failing (path : string) : result string :=
    Raise (ValueError "substring not found") in
  NoDup (sdks.*1)
  /\ (2, "d2") ∈ sdks
  /\ snd (package_sdk_source four_sdks "d2") <> None
  /\ (forall l p, (l, p) ∈ sdks ->
                  snd (package_sdk_source four_sdks p) <> None -> 2 <= l)
  /\ out_result
       (generate_plugins four_sdks plain_render "base" sdks 2 [1; 0; 5]%nat)
     = Raise (KeyError 2)
  /\ out_result
       (generate_plugins four_sdks failing "base" sdks 2 [1; 0; 5]%nat)
     = Raise (ValueError "substring not found").
Proof.
  intros sdks failing.
  assert (Hn : NoDup (sdks.*1)).
  { apply (bool_decide_unpack _). vm_compute. exact I. }
  assert (Hm : (2, "d2") ∈ sdks) by (do 3 right; left).
  assert (Hf : snd (package_sdk_source four_sdks "d2") <> None)
    by discriminate.
  assert (Hmin : forall l p, (l, p) ∈ sdks ->
                   snd (package_sdk_source four_sdks p) <> None -> 2 <= l).
  { intros l p H Hp.
    repeat (apply elem_of_cons in H as [H|H]; [simplify_eq; try lia|]).
    by apply elem_of_nil in H. }
  pose proof (failed_task_aborts_at_its_level four_sdks plain_render "base"
                sdks 2 [1; 0; 5]%nat 2 "d2" Hn ltac:(reflexivity) Hm Hf
                Hmin) as H.
  pose proof (failed_task_aborts_at_its_level four_sdks failing "base"
                sdks 2 [1; 0; 5]%nat 2 "d2" Hn ltac:(reflexivity) Hm Hf
                Hmin) as H'.
  cbv zeta in H, H'.
  change (fst (assets_written four_sdks plain_render "base"))
    with (@Ok unit tt) in H.
  change (fst (assets_written four_sdks failing "base"))
    with (@Raise unit (ValueError "substring not found")) in H'.
  cbv iota in H, H'.
  destruct H as (H1 & _). destruct H' as (H1' & _).
  split_and!; assumption.
Defined.

(** * Further properties *)

(** ** Trimming *)

Section Strip.

Lemma string_app_nil_r (s : string) : s ++ "" = s.
Proof.
  induction s as [|c s IH]; [reflexivity|].
  change (String c (s ++ "") = String c s). by rewrite IH.
Qed.

Lemma rstrip_cons (c : ascii) (s : string) :
  rstrip (String c s) =
  if is_empty (rstrip s)
  then (if isspace c then "" else String c "")
  else String c (rstrip s).
Proof. cbn [rstrip]. by destruct (rstrip s). Qed.

Lemma rstrip_idempotent (s : string) : rstrip (rstrip s) = rstrip s.
Proof.
  induction s as [|c s IH]; [reflexivity|].
  rewrite rstrip_cons. destruct (rstrip s) as [|d r] eqn:E; cbn [is_empty].
  - destruct (isspace c) eqn:Ec; [reflexivity|].
    rewrite rstrip_cons. cbn [rstrip is_empty]. by rewrite Ec.
  - rewrite rstrip_cons, IH. reflexivity.
Qed.

Lemma rstrip_fixed_tail (c : ascii) (s : string) :
  is_empty s = false -> rstrip (String c s) = String c s -> rstrip s = s.
Proof.
  intros Hs. rewrite rstrip_cons.
  destruct (rstrip s) as [|d r] eqn:E; cbn [is_empty].
  - destruct (isspace c); intros H; [discriminate|].
    injection H as <-. discriminate.
  - by intros [= ->].
Qed.

Lemma rstrip_lstrip (s : string) :
  rstrip s = s -> rstrip (lstrip s) = lstrip s.
Proof.
  induction s as [|c s IH]; [reflexivity|]. intros H.
  cbn [lstrip]. destruct (isspace c) eqn:Ec; [|exact H].
  destruct s as [|d s']; [reflexivity|].
  apply IH. by apply (rstrip_fixed_tail c).
Qed.

Lemma lstrip_idempotent (s : string) : lstrip (lstrip s) = lstrip s.
Proof.
  induction s as [|c s IH]; [reflexivity|].
  cbn [lstrip]. destruct (isspace c) eqn:Ec; [exact IH|].
  cbn [lstrip]. by rewrite Ec.
Qed.

(** Trimming a trimmed string changes nothing. *)
Lemma strip_idempotent (s : string) : strip (strip s) = strip s.
Proof.
  unfold strip.
  rewrite (rstrip_lstrip (rstrip s) (rstrip_idempotent s)).
  apply lstrip_idempotent.
Qed.

(** White space in front does not survive. *)
Lemma strip_leading_space (c : ascii) (s : string) :
  isspace c = true -> strip (String c s) = strip s.
Proof.
  intros Hc. unfold strip. rewrite rstrip_cons, Hc.
  destruct (rstrip s) as [|d r]; cbn [is_empty lstrip]; [reflexivity|].
  by rewrite Hc.
Qed.

End Strip.

(** ** More on the line tokenizer *)

Section Tokens.

Lemma plain_char_spec (c : ascii) :
  plain_char c = true ->
  Ascii.eqb c backslash = false /\ char_in c ":=" = false.
Proof.
  unfold plain_char. intros H. apply andb_true_iff in H as [H1 H2].
  by apply negb_true_iff in H1, H2.
Qed.

Lemma separator_not_backslash (c : ascii) :
  char_in c ":=" = true -> Ascii.eqb c backslash = false.
Proof.
  intros H. destruct (Ascii.eqb c backslash) eqn:E; [|reflexivity].
  apply Ascii.eqb_eq in E. subst c. discriminate.
Qed.

(** Plain text is copied. *)
Lemma scan_line_plain (s : string) :
  forall k cl,
    all_chars plain_char s = true ->
    scan_line (between k cl) s = Some (between k (cl ++ s)).
Proof.
  induction s as [|c s IH]; intros k cl H.
  - cbn [scan_line]. by rewrite string_app_nil_r.
  - cbn [all_chars] in H. apply andb_true_iff in H as [Hc Hs].
    destruct (plain_char_spec c Hc) as [Hb Hsep].
    cbn [scan_line]. unfold scan_char, scan_plain.
    cbn [between hex_code escaped key current_line in_key hex_string].
    rewrite Hb, Hsep.
    change (scan_line (between k (cl ++ char c)) s
            = Some (between k (cl ++ String c s))).
    rewrite IH by done. by rewrite string_app_assoc.
Qed.

(** A separator closes the key. *)
Lemma scan_char_separator (k cl : string) (c : ascii) :
  char_in c ":=" = true ->
  scan_char (between k cl) c = Some (between (strip cl) "").
Proof.
  intros Hc. unfold scan_char, scan_plain.
  cbn [between hex_code escaped key current_line in_key hex_string].
  by rewrite (separator_not_backslash c Hc), Hc.
Qed.

(** A backslash and a separator give the separator as text. *)
Lemma scan_line_escaped_separator (k cl : string) (e : ascii) (rest : string) :
  char_in e ":=" = true ->
  scan_line (between k cl) (String backslash (String e rest))
  = scan_line (between k (cl ++ char e)) rest.
Proof.
  intros He. cbn [scan_line]. unfold scan_char at 1, scan_plain.
  cbn [between hex_code escaped key current_line in_key hex_string].
  rewrite Ascii.eqb_refl. unfold scan_char at 1.
  cbn [hex_code escaped key current_line in_key hex_string].
  by rewrite He.
Qed.

(** A backslash and [u] open an escape. *)
Lemma scan_line_open_escape (k cl rest : string) :
  scan_line (between k cl) (String backslash (String "u" rest))
  = scan_line (in_escape k cl "") rest.
Proof.
  cbn [scan_line]. unfold scan_char at 1, scan_plain.
  cbn [between hex_code escaped key current_line in_key hex_string].
  rewrite Ascii.eqb_refl. reflexivity.
Qed.

Lemma length_append_char (s : string) (c : ascii) :
  String.length (s ++ char c) = S (String.length s).
Proof.
  induction s as [|d s IH]; [reflexivity|].
  change (S (String.length (s ++ char c)) = S (S (String.length s))).
  by rewrite IH.
Qed.

Lemma string_length_app (a b : string) :
  String.length (a ++ b) = (String.length a + String.length b)%nat.
Proof.
  induction a as [|d a IH]; [reflexivity|].
  change (S (String.length (a ++ b))
          = S (String.length a + String.length b)).
  by rewrite IH.
Qed.

(** Inside an escape up to four hexadecimal digits are collected. *)
Lemma scan_line_digits (h : string) :
  forall k cl hs,
    all_chars is_hex h = true ->
    (String.length hs + String.length h <= 4)%nat ->
    scan_line (in_escape k cl hs) h = Some (in_escape k cl (hs ++ h)).
Proof.
  induction h as [|c h IH]; intros k cl hs Hh Hl.
  - cbn [scan_line]. by rewrite string_app_nil_r.
  - cbn [all_chars] in Hh. apply andb_true_iff in Hh as [Hc Hh].
    cbn [String.length] in Hl.
    cbn [scan_line]. unfold scan_char.
    cbn [in_escape hex_code escaped key current_line in_key hex_string].
    destruct (Nat.eqb_spec (String.length hs) 4) as [E|_]; [lia|].
    unfold is_hex, HEX in Hc. rewrite Hc. cbn [negb].
    change (scan_line (in_escape k cl (hs ++ char c)) h
            = Some (in_escape k cl (hs ++ String c h))).
    rewrite IH; [by rewrite string_app_assoc | done |].
    rewrite length_append_char. lia.
Qed.

(** Before the fourth digit a character that is no digit ends the scan. *)
Lemma scan_char_bad_digit (k cl hs : string) (c : ascii) :
  (String.length hs < 4)%nat -> is_hex c = false ->
  scan_char (in_escape k cl hs) c = None.
Proof.
  intros Hl Hc. unfold scan_char.
  cbn [in_escape hex_code escaped key current_line in_key hex_string].
  destruct (Nat.eqb_spec (String.length hs) 4) as [E|_]; [lia|].
  unfold is_hex, HEX in Hc. by rewrite Hc.
Qed.

(** After the fourth digit a plain character appends the number and
    itself. *)
Lemma scan_char_after_escape (k cl hs : string) (c : ascii) :
  String.length hs = 4%nat -> plain_char c = true ->
  scan_char (in_escape k cl hs) c
  = Some (between k ((cl ++ str_of_N (int16 hs)) ++ char c)).
Proof.
  intros Hl Hc. destruct (plain_char_spec c Hc) as [Hb Hsep].
  unfold scan_char, scan_plain.
  cbn [in_escape hex_code escaped key current_line in_key hex_string].
  by rewrite Hl, Hb, Hsep.
Qed.

(** The scan of [key], a separator and a plain value. *)
Lemma scan_line_pair (k v : string) (sep : ascii) :
  all_chars plain_char k = true -> all_chars plain_char v = true ->
  char_in sep ":=" = true ->
  scan_line scan_init (k ++ String sep v) = Some (between (strip k) v).
Proof.
  intros Hk Hv Hsep. change scan_init with (between "" "").
  rewrite scan_line_app, scan_line_plain by done.
  cbn [scan_line]. rewrite scan_char_separator by done.
  by rewrite scan_line_plain.
Qed.

(** A character that is no separator leaves the key as it is. *)
Lemma scan_char_key (st st' : scan) (c : ascii) :
  char_in c ":=" = false -> scan_char st c = Some st' -> key st' = key st.
Proof.
  intros Hc. unfold scan_char, scan_plain. rewrite Hc.
  intros H. repeat case_match; by simplify_eq.
Qed.

(** The key is empty or trimmed at every point of the scan. *)
Lemma scan_char_key_trimmed (st st' : scan) (c : ascii) :
  strip (key st) = key st -> scan_char st c = Some st' ->
  strip (key st') = key st'.
Proof.
  intros Hk. unfold scan_char, scan_plain.
  intros H. repeat case_match; simplify_eq; cbn [key];
    auto using strip_idempotent.
Qed.

Lemma scan_line_key_trimmed (line : string) :
  forall st st',
    strip (key st) = key st -> scan_line st line = Some st' ->
    strip (key st') = key st'.
Proof.
  induction line as [|c line IH]; intros st st' Hk H; cbn [scan_line] in H.
  - by simplify_eq.
  - destruct (scan_char st c) as [st1|] eqn:E; [|discriminate].
    apply (IH st1 st'); [|done]. by eapply scan_char_key_trimmed.
Qed.

End Tokens.

(** X1.  A line of plain characters around one separator gives the
    trimmed text before the separator as key and the trimmed text after
    it as value, for [=] and for [:] alike; when nothing but white
    space stands before the separator the line is rejected. *)
Theorem split_property_line_plain_pair (k v : string) (sep : ascii) :
  all_chars plain_char k = true ->
  all_chars plain_char v = true ->
  char_in sep ":=" = true ->
  split_property_line (k ++ String sep v)
  = if is_empty (strip k) then None else Some (strip k, strip v).
Proof.
  intros Hk Hv Hsep. unfold split_property_line.
  by rewrite scan_line_pair.
Qed.

Lemma split_property_line_plain_pair_witness :
  all_chars plain_char " Pkg.Revision " = true
  /\ all_chars plain_char " 2 " = true
  /\ char_in "=" ":=" = true
  /\ split_property_line (" Pkg.Revision " ++ String "=" " 2 ")
     = Some ("Pkg.Revision", "2").
Proof.
  split; [reflexivity|]. split; [reflexivity|]. split; [reflexivity|].
  exact (split_property_line_plain_pair " Pkg.Revision " " 2 " "="
           eq_refl eq_refl eq_refl).
Defined.

(** X2.  A line in which no [:] and no [=] occurs is rejected, whatever
    else it holds. *)
Theorem split_property_line_no_separator (line : string) :
  all_chars (fun c => negb (is_separator c)) line = true ->
  split_property_line line = None.
Proof.
  intros H. unfold split_property_line.
  assert (Hkey : forall l st st',
             all_chars (fun c => negb (is_separator c)) l = true ->
             scan_line st l = Some st' -> key st' = key st).
  { induction l as [|c l IH]; intros st st' Hl Hs; cbn [scan_line] in Hs.
    - by simplify_eq.
    - cbn [all_chars] in Hl. apply andb_true_iff in Hl as [Hc Hl].
      apply negb_true_iff in Hc.
      destruct (scan_char st c) as [st1|] eqn:E; [|discriminate].
      rewrite (IH st1 st' Hl Hs). by eapply scan_char_key. }
  destruct (scan_line scan_init line) as [st|] eqn:E; [|reflexivity].
  by rewrite (Hkey line scan_init st H E).
Qed.

Lemma split_property_line_no_separator_witness :
  all_chars (fun c => negb (is_separator c)) "just \u0041 words" = true
  /\ split_property_line "just \u0041 words" = None.
Proof.
  split; [reflexivity|].
  exact (split_property_line_no_separator "just \u0041 words" eq_refl).
Defined.

(** X3.  The pair that [split_property_line] returns has a key that is
    not empty, and its key and its value are trimmed. *)
Theorem split_property_line_result_trimmed (line k v : string) :
  split_property_line line = Some (k, v) ->
  k <> "" /\ strip k = k /\ strip v = v.
Proof.
  unfold split_property_line.
  destruct (scan_line scan_init line) as [st|] eqn:E; [|discriminate].
  destruct (is_empty (key st)) eqn:Ek; [discriminate|].
  intros [= <- <-]. split_and!.
  - intros H. by rewrite H in Ek.
  - by apply (scan_line_key_trimmed line scan_init st).
  - apply strip_idempotent.
Qed.

Lemma split_property_line_result_trimmed_witness :
  split_property_line " a = b " = Some ("a", "b")
  /\ "a" <> "" /\ strip "a" = "a" /\ strip "b" = "b".
Proof.
  split; [reflexivity|].
  exact (split_property_line_result_trimmed " a = b " "a" "b" eq_refl).
Defined.

(** X4.  A separator after a backslash is text: in the key it does not
    end the key, in the value it does not reject the line, and the
    backslash is dropped. *)
Theorem split_property_line_escaped_separator
    (a b v w : string) (e e' sep : ascii) :
  all_chars plain_char a = true -> all_chars plain_char b = true ->
  all_chars plain_char v = true -> all_chars plain_char w = true ->
  char_in e ":=" = true -> char_in e' ":=" = true ->
  char_in sep ":=" = true ->
  split_property_line
    (a ++ String backslash (String e (b ++ String sep
       (v ++ String backslash (String e' w)))))
  = if is_empty (strip (a ++ String e b)) then None
    else Some (strip (a ++ String e b), strip (v ++ String e' w)).
Proof.
  intros Ha Hb Hv Hw He He' Hsep. unfold split_property_line.
  change scan_init with (between "" "").
  rewrite scan_line_app, scan_line_plain by done. cbn [append].
  rewrite scan_line_escaped_separator by done.
  rewrite scan_line_app, scan_line_plain by done.
  cbn [scan_line]. rewrite scan_char_separator by done.
  rewrite scan_line_app, scan_line_plain by done. cbn [append].
  rewrite scan_line_escaped_separator by done.
  rewrite scan_line_plain by done.
  cbn [between key current_line].
  by rewrite !string_app_assoc.
Qed.

Lemma split_property_line_escaped_separator_witness :
  all_chars plain_char "a" = true /\ all_chars plain_char "b" = true
  /\ all_chars plain_char "c" = true /\ all_chars plain_char "d" = true
  /\ split_property_line
       ("a" ++ String backslash (String ":" ("b" ++ String "="
          ("c" ++ String backslash (String "=" "d")))))
     = Some ("a:b", "c=d").
Proof.
  split; [reflexivity|]. split; [reflexivity|]. split; [reflexivity|].
  split; [reflexivity|].
  exact (split_property_line_escaped_separator "a" "b" "c" "d" ":" "=" "="
           eq_refl eq_refl eq_refl eq_refl eq_refl eq_refl eq_refl).
Defined.

Section Escapes.

Lemma isspace_plain (c : ascii) : isspace c = true -> plain_char c = true.
Proof.
  destruct c as [[] [] [] [] [] [] [] []]; intros H;
    try discriminate H; reflexivity.
Qed.

(** The scan of a key, a separator, a plain value and the opening of an
    escape. *)
Lemma scan_line_to_escape (k v rest : string) (sep : ascii) :
  all_chars plain_char k = true -> all_chars plain_char v = true ->
  char_in sep ":=" = true ->
  scan_line scan_init
    (k ++ String sep (v ++ String backslash (String "u" rest)))
  = scan_line (in_escape (strip k) v "") rest.
Proof.
  intros Hk Hv Hsep. change scan_init with (between "" "").
  rewrite scan_line_app, scan_line_plain by done.
  cbn [scan_line]. rewrite scan_char_separator by done.
  rewrite scan_line_app, scan_line_plain by done. cbn [String.append].
  apply scan_line_open_escape.
Qed.

Lemma append_cons (c : ascii) (a b : string) :
  String c a ++ b = String c (a ++ b).
Proof. reflexivity. Qed.

Lemma scan_char_shifted (c x : ascii) (st st' : scan) :
  isspace c = true -> shifted c st st' ->
  match scan_char st x, scan_char st' x with
  | None, None => True
  | Some a, Some b => shifted c a b \/ a = b
  | _, _ => False
  end.
Proof.
  intros Hc ->. unfold scan_char, scan_plain, shifted.
  cbn [key current_line in_key escaped hex_code hex_string].
  destruct (hex_code st), (String.length (hex_string st) =? 4)%nat,
    (escaped st), (Ascii.eqb x backslash), (char_in x ":="),
    (in_key st), (Ascii.eqb x "u"), (char_in x "0123456789ABCDEF");
    cbn [negb String.append key current_line in_key escaped hex_code
         hex_string];
    rewrite ?append_cons, ?(strip_leading_space c) by done; auto.
Qed.

Lemma scan_line_shifted (c : ascii) (line : string) :
  isspace c = true ->
  forall st st',
    shifted c st st' ->
    scan_result (scan_line st' line) = scan_result (scan_line st line).
Proof.
  intros Hc. induction line as [|x line IH]; intros st st' H.
  - cbn [scan_line scan_result]. rewrite H.
    cbn [key current_line]. by rewrite strip_leading_space.
  - cbn [scan_line].
    pose proof (scan_char_shifted c x st st' Hc H) as Hx.
    destruct (scan_char st x) as [a|], (scan_char st' x) as [b|];
      try done.
    destruct Hx as [Hx| ->]; [by apply IH | reflexivity].
Qed.

(** One character of white space in front of a line changes nothing. *)
Lemma split_leading_space (c : ascii) (line : string) :
  isspace c = true ->
  split_property_line (String c line) = split_property_line line.
Proof.
  intros Hc.
  change (scan_result (scan_line scan_init (String c line))
          = scan_result (scan_line scan_init line)).
  destruct (plain_char_spec c (isspace_plain c Hc)) as [Hb Hsep].
  cbn [scan_line]. unfold scan_char at 1, scan_plain.
  cbn [scan_init key current_line in_key escaped hex_code hex_string].
  rewrite Hb, Hsep.
  apply (scan_line_shifted c line Hc). reflexivity.
Qed.

(** The pair that is returned is trimmed and has a key. *)
Lemma split_trimmed (line k v : string) :
  split_property_line line = Some (k, v) ->
  k <> "" /\ strip k = k /\ strip v = v.
Proof.
  unfold split_property_line.
  destruct (scan_line scan_init line) as [st|] eqn:E; [|discriminate].
  destruct (is_empty (key st)) eqn:Ek; [discriminate|].
  intros [= <- <-]. split_and!.
  - intros H. by rewrite H in Ek.
  - by apply (scan_line_key_trimmed line scan_init st).
  - apply strip_idempotent.
Qed.

End Escapes.

(** X5.  An escape in the value that meets a character other than
    [0-9A-F] before its fourth digit rejects the line. *)
Theorem split_property_line_bad_escape
    (k v h rest : string) (sep c : ascii) :
  all_chars plain_char k = true -> all_chars plain_char v = true ->
  char_in sep ":=" = true ->
  all_chars is_hex h = true -> (String.length h < 4)%nat ->
  is_hex c = false ->
  split_property_line
    (k ++ String sep (v ++ String backslash (String "u"
       (h ++ String c rest))))
  = None.
Proof.
  intros Hk Hv Hsep Hh Hl Hc. unfold split_property_line.
  rewrite scan_line_to_escape by done.
  rewrite scan_line_app, scan_line_digits by (cbn; done || lia).
  cbn [scan_line String.append].
  by rewrite scan_char_bad_digit.
Qed.

Lemma split_property_line_bad_escape_witness :
  all_chars plain_char "k" = true /\ all_chars plain_char "" = true
  /\ all_chars is_hex "00" = true /\ (String.length "00" < 4)%nat
  /\ is_hex "e" = false
  /\ split_property_line
       ("k" ++ String "=" ("" ++ String backslash (String "u"
          ("00" ++ String "e" "9"))))
     = None.
Proof.
  split; [reflexivity|]. split; [reflexivity|]. split; [reflexivity|].
  split; [cbn; lia|]. split; [reflexivity|].
  apply (split_property_line_bad_escape "k" "" "00" "9" "=" "e");
    try reflexivity.
  cbn; lia.
Defined.

(** X6.  An escape of four digits in the value that is followed by
    plain text is replaced by the decimal string of its number: the
    value is the text before it, that string and the text after it,
    trimmed. *)
Theorem split_property_line_escape_decoded
    (k v h w : string) (sep x : ascii) :
  all_chars plain_char k = true -> all_chars plain_char v = true ->
  char_in sep ":=" = true ->
  all_chars is_hex h = true -> String.length h = 4%nat ->
  all_chars plain_char (String x w) = true ->
  split_property_line
    (k ++ String sep (v ++ String backslash (String "u"
       (h ++ String x w))))
  = if is_empty (strip k) then None
    else Some (strip k, strip (v ++ str_of_N (int16 h) ++ String x w)).
Proof.
  intros Hk Hv Hsep Hh Hl Hxw. unfold split_property_line.
  cbn [all_chars] in Hxw. apply andb_true_iff in Hxw as [Hx Hw].
  rewrite scan_line_to_escape by done.
  rewrite scan_line_app, scan_line_digits by (cbn; done || lia).
  cbn [scan_line String.append].
  rewrite scan_char_after_escape by done.
  rewrite scan_line_plain by done.
  cbn [between key current_line].
  by rewrite !string_app_assoc.
Qed.

Lemma split_property_line_escape_decoded_witness :
  all_chars plain_char "k" = true /\ all_chars plain_char "a" = true
  /\ all_chars is_hex "0041" = true /\ String.length "0041" = 4%nat
  /\ all_chars plain_char (String "b" "") = true
  /\ split_property_line
       ("k" ++ String "=" ("a" ++ String backslash (String "u"
          ("0041" ++ String "b" ""))))
     = Some ("k", "a65b").
Proof.
  split; [reflexivity|]. split; [reflexivity|]. split; [reflexivity|].
  split; [reflexivity|]. split; [reflexivity|].
  exact (split_property_line_escape_decoded "k" "a" "0041" "" "=" "b"
           eq_refl eq_refl eq_refl eq_refl eq_refl eq_refl).
Defined.

(** X7.  An escape that the end of the line cuts short, with any number
    of digits up to four, is dropped without an error: the line gives
    the pair that it gives without the escape. *)
Theorem split_property_line_escape_at_end
    (k v h : string) (sep : ascii) :
  all_chars plain_char k = true -> all_chars plain_char v = true ->
  char_in sep ":=" = true ->
  all_chars is_hex h = true -> (String.length h <= 4)%nat ->
  split_property_line
    (k ++ String sep (v ++ String backslash (String "u" h)))
  = split_property_line (k ++ String sep v).
Proof.
  intros Hk Hv Hsep Hh Hl. unfold split_property_line.
  rewrite scan_line_to_escape by done.
  rewrite scan_line_digits by (cbn; done || lia).
  by rewrite scan_line_pair.
Qed.

Lemma split_property_line_escape_at_end_witness :
  all_chars plain_char "k" = true /\ all_chars plain_char "v" = true
  /\ all_chars is_hex "00E" = true /\ (String.length "00E" <= 4)%nat
  /\ split_property_line
       ("k" ++ String "=" ("v" ++ String backslash (String "u" "00E")))
     = split_property_line ("k" ++ String "=" "v").
Proof.
  split; [reflexivity|]. split; [reflexivity|]. split; [reflexivity|].
  split; [cbn; lia|].
  apply (split_property_line_escape_at_end "k" "v" "00E" "=");
    try reflexivity.
  cbn; lia.
Defined.

(** X8.  White space in front of a line does not change what
    [split_property_line] returns. *)
Theorem split_property_line_leading_space (ws line : string) :
  all_chars isspace ws = true ->
  split_property_line (ws ++ line) = split_property_line line.
Proof.
  induction ws as [|c ws IH]; intros H; [reflexivity|].
  cbn [all_chars] in H. apply andb_true_iff in H as [Hc Hws].
  rewrite append_cons, split_leading_space by done. by apply IH.
Qed.

Lemma split_property_line_leading_space_witness :
  all_chars isspace "   " = true
  /\ split_property_line ("   " ++ "k=v") = split_property_line "k=v".
Proof.
  split; [reflexivity|].
  exact (split_property_line_leading_space "   " "k=v" eq_refl).
Defined.

(** ** More on the file reader *)

Section Lines.

(** A blank line is passed over in every state. *)
Lemma read_line_blank (st : reader) (source_line : string) :
  is_empty (strip source_line) = true -> read_line st source_line = Ok st.
Proof. intros H. unfold read_line. by rewrite H. Qed.

(** A line that is not continued, read when no line is pending. *)
Lemma read_line_complete (m : gmap string string) (source_line : string) :
  complete source_line ->
  read_line (ready m) source_line =
  if is_skipped source_line then Ok (ready m)
  else
    match split_property_line (strip source_line) with
    | None =>
        Raise (Exception ("Invalid property found in" ++ " "
                          ++ strip source_line))
    | Some (k, v) => Ok (ready (<[k := v]> m))
    end.
Proof.
  intros Hc. unfold read_line, is_skipped, deliver, complete in *.
  cbn [ready values is_continuing line_buffer negb andb].
  destruct (is_empty (strip source_line)); [reflexivity|].
  cbn [orb].
  destruct (startswith "#" (strip source_line)
            || startswith "!" (strip source_line)); [reflexivity|].
  rewrite Hc.
  change ("" ++ " " ++ strip source_line)
    with (String " " (strip source_line)).
  by rewrite (split_leading_space " " (strip source_line) eq_refl).
Qed.

Lemma read_lines_complete (lines : list string) :
  Forall complete lines ->
  forall m,
    (let* st := read_lines (ready m) lines in Ok (values st))
    = parse_complete_lines m lines.
Proof.
  induction 1 as [|l lines Hl _ IH]; intros m; [reflexivity|].
  cbn [read_lines parse_complete_lines].
  rewrite (read_line_complete m l Hl).
  destruct (is_skipped l); [apply IH|].
  destruct (split_property_line (strip l)) as [[k v]|];
    [apply IH | reflexivity].
Qed.

Lemma parse_complete_lines_app (l1 l2 : list string) :
  forall m,
    parse_complete_lines m (l1 ++ l2) =
    (let* m' := parse_complete_lines m l1 in parse_complete_lines m' l2).
Proof.
  induction l1 as [|l l1 IH]; intros m; [reflexivity|].
  cbn [app parse_complete_lines].
  destruct (is_skipped l); [apply IH|].
  destruct (split_property_line (strip l)) as [[k v]|];
    [apply IH | reflexivity].
Qed.

Lemma read_line_trimmed (st st' : reader) (source_line : string) :
  map_Forall trimmed_pair (values st) ->
  read_line st source_line = Ok st' ->
  map_Forall trimmed_pair (values st').
Proof.
  intros Hm. unfold read_line, deliver.
  intros Hr. repeat case_match; simplify_eq; try done.
  cbn [values]. apply map_Forall_insert_2; [|done].
  by eapply split_trimmed.
Qed.

Lemma read_lines_trimmed (lines : list string) :
  forall st st',
    map_Forall trimmed_pair (values st) ->
    read_lines st lines = Ok st' ->
    map_Forall trimmed_pair (values st').
Proof.
  induction lines as [|l lines IH]; intros st st' Hm H;
    cbn [read_lines] in H.
  - by simplify_eq.
  - destruct (read_line st l) as [st1|] eqn:E; [|discriminate].
    cbn [bind] in H. apply (IH st1 st'); [|done].
    by eapply read_line_trimmed.
Qed.

End Lines.

(** X9.  A file in which no line ends with a backslash is read line by
    line: blank lines and lines that start with [#] or [!] are passed
    over, every other line is trimmed and tokenized on its own, a line
    that the tokenizer rejects raises the exception with that line, and
    a later pair replaces an earlier one of the same key. *)
Theorem parse_without_continuation (lines : list string) :
  Forall (fun l => endswith "\" (strip l) = false) lines ->
  parse_property_lines lines = parse_complete_lines ∅ lines.
Proof. intros H. apply (read_lines_complete lines H ∅). Qed.

Lemma parse_without_continuation_witness :
  Forall (fun l => endswith "\" (strip l) = false)
         ["# comment"; ""; " k = 1 "; "k: 2"]
  /\ parse_property_lines ["# comment"; ""; " k = 1 "; "k: 2"]
     = parse_complete_lines ∅ ["# comment"; ""; " k = 1 "; "k: 2"].
Proof.
  assert (H : Forall (fun l => endswith "\" (strip l) = false)
                     ["# comment"; ""; " k = 1 "; "k: 2"])
    by (repeat constructor).
  split; [exact H|].
  exact (parse_without_continuation _ H).
Defined.

(** X10.  A blank line changes nothing wherever it stands, also between
    a line that ends with a backslash and its continuation. *)
Theorem parse_blank_line_ignored (before after : list string)
    (blank : string) :
  is_empty (strip blank) = true ->
  parse_property_lines (before ++ blank :: after)
  = parse_property_lines (before ++ after).
Proof.
  intros H. unfold parse_property_lines.
  rewrite !read_lines_app.
  destruct (read_lines reader_init before) as [st|e]; [|reflexivity].
  cbn [bind read_lines]. by rewrite (read_line_blank st blank H).
Qed.

Lemma parse_blank_line_ignored_witness :
  is_empty (strip "   ") = true
  /\ parse_property_lines (["k=a\"] ++ "   " :: ["b"])
     = parse_property_lines (["k=a\"] ++ ["b"]).
Proof.
  split; [reflexivity|].
  exact (parse_blank_line_ignored ["k=a\"] ["b"] "   " eq_refl).
Defined.

(** X11.  In the mapping that [parse_property_file] returns every key
    is non-empty and trimmed and every value is trimmed. *)
Theorem parse_property_lines_trimmed (lines : list string)
    (m : gmap string string) (k v : string) :
  parse_property_lines lines = Ok m ->
  m !! k = Some v ->
  k <> "" /\ strip k = k /\ strip v = v.
Proof.
  unfold parse_property_lines. intros H Hk.
  destruct (read_lines reader_init lines) as [st|] eqn:E; [|discriminate].
  cbn [bind] in H. injection H as <-.
  assert (Hm : map_Forall trimmed_pair (values st)).
  { apply (read_lines_trimmed lines reader_init st); [|done].
    apply map_Forall_empty. }
  exact (Hm k v Hk).
Qed.

Lemma parse_property_lines_trimmed_witness :
  parse_property_lines ["  Pkg.Desc  =  Android SDK  "]
  = Ok {[ "Pkg.Desc" := "Android SDK" ]}
  /\ ({[ "Pkg.Desc" := "Android SDK" ]} : gmap string string) !! "Pkg.Desc"
     = Some "Android SDK"
  /\ "Pkg.Desc" <> ""
  /\ strip "Pkg.Desc" = "Pkg.Desc"
  /\ strip "Android SDK" = "Android SDK".
Proof.
  assert (H1 : parse_property_lines ["  Pkg.Desc  =  Android SDK  "]
               = Ok {[ "Pkg.Desc" := "Android SDK" ]}) by reflexivity.
  assert (H2 : ({[ "Pkg.Desc" := "Android SDK" ]} : gmap string string)
                 !! "Pkg.Desc" = Some "Android SDK") by reflexivity.
  split; [exact H1|]. split; [exact H2|].
  exact (parse_property_lines_trimmed _ _ _ _ H1 H2).
Defined.

(** X12.  In a file without continuations a line that is not passed
    over and that the tokenizer accepts stores its pair over what the
    lines before it gave, and one that the tokenizer rejects raises
    the exception that names it; the lines after it are not read. *)
Theorem parse_last_line_wins (before after : list string)
    (source_line : string) (m : gmap string string) :
  Forall (fun l => endswith "\" (strip l) = false)
         (before ++ [source_line]) ->
  parse_property_lines before = Ok m ->
  is_skipped source_line = false ->
  match split_property_line (strip source_line) with
  | Some (k, v) =>
      parse_property_lines (before ++ [source_line]) = Ok (<[k := v]> m)
  | None =>
      parse_property_lines (before ++ source_line :: after)
      = Raise (Exception ("Invalid property found in" ++ " "
                          ++ strip source_line))
  end.
Proof.
  intros Hall Hm Hs.
  rewrite Forall_app in Hall. destruct Hall as [Hb Hl].
  rewrite Forall_singleton in Hl.
  pose proof (read_lines_complete before Hb ∅) as Eb.
  change (parse_property_lines before = parse_complete_lines ∅ before)
    in Eb.
  rewrite Hm in Eb.
  destruct (split_property_line (strip source_line)) as [[k v]|] eqn:E.
  - change (parse_property_lines (before ++ [source_line]))
      with (let* st := read_lines (ready ∅) (before ++ [source_line]) in
            Ok (values st)).
    rewrite read_lines_complete
      by (rewrite Forall_app, Forall_singleton; done).
    rewrite parse_complete_lines_app, <- Eb.
    cbn [bind parse_complete_lines]. by rewrite Hs, E.
  - unfold parse_property_lines. rewrite read_lines_app.
    pose proof (read_lines_complete before Hb ∅) as Eb'.
    rewrite <- Eb in Eb'.
    destruct (read_lines (ready ∅) before) as [st|e] eqn:Er;
      [|discriminate].
    change reader_init with (ready ∅). rewrite Er.
    cbn [bind read_lines].
    assert (Est : st = ready (values st)).
    { clear -Er Hb. revert Er. generalize (∅ : gmap string string).
      induction Hb as [|l ls Hl _ IH]; intros m0 Er.
      - cbn in Er. by simplify_eq.
      - cbn [read_lines] in Er. rewrite (read_line_complete m0 l Hl) in Er.
        destruct (is_skipped l); [by eapply IH|].
        destruct (split_property_line (strip l)) as [[k v]|];
          [by eapply IH | discriminate]. }
    rewrite Est.
    rewrite (read_line_complete (values st) source_line Hl), Hs, E.
    reflexivity.
Qed.

Lemma parse_last_line_wins_witness :
  Forall (fun l => endswith "\" (strip l) = false) (["k=1"] ++ ["k=2"])
  /\ parse_property_lines ["k=1"] = Ok {[ "k" := "1" ]}
  /\ is_skipped "k=2" = false
  /\ parse_property_lines (["k=1"] ++ ["k=2"])
     = Ok (<[ "k" := "2" ]> {[ "k" := "1" ]}).
Proof.
  assert (H : Forall (fun l => endswith "\" (strip l) = false)
                     (["k=1"] ++ ["k=2"])) by (repeat constructor).
  split; [exact H|]. split; [reflexivity|]. split; [reflexivity|].
  exact (parse_last_line_wins ["k=1"] [] "k=2" {[ "k" := "1" ]}
           H eq_refl eq_refl).
Defined.

(** ** More on the source catalog *)

Section Collected.

Variable fs : filesystem.
Variable sources : string.

Local Open Scope list_scope.

Lemma omap_one {A B : Type} (f : A -> option B) (x : A) :
  omap f [x] = match f x with Some y => [y] | None => [] end.
Proof. cbn. by destruct (f x). Qed.

(** The entry of a directory, read off its properties. *)
Lemma catalog_entry_properties (d : string)
    (properties : gmap string string) :
  parse_property_file fs (properties_path sources d) = Ok properties ->
  catalog_entry fs sources d =
  match properties !! "AndroidVersion.ApiLevel" with
  | None => None
  | Some v =>
      if isdigit v then Some (int10 v, path_join sources d) else None
  end.
Proof.
  intros Hp. unfold catalog_entry, reported_level. rewrite Hp.
  destruct (properties !! "AndroidVersion.ApiLevel") as [v|];
    [|reflexivity].
  by destruct (isdigit v).
Qed.

Lemma isdigit_nonempty (v : string) :
  isdigit v = true -> is_empty v = false.
Proof. by destruct v. Qed.

(** A directory is appended when it reports a level and left out
    otherwise. *)
Lemma collect_directory_entry (acc acc' : list (Z * string)) (d : string) :
  collect_directory fs sources acc d = Ok acc' ->
  acc' = acc ++ omap (catalog_entry fs sources) [d].
Proof.
  unfold collect_directory. fold (properties_path sources d).
  destruct (parse_property_file fs (properties_path sources d))
    as [properties|e] eqn:Hp; [|discriminate].
  rewrite omap_one, (catalog_entry_properties d properties Hp).
  cbn [bind].
  destruct (properties !! "AndroidVersion.ApiLevel") as [v|];
    [|intros [= <-]; by rewrite app_nil_r].
  destruct (isdigit v) eqn:Ed.
  - rewrite (isdigit_nonempty v Ed). cbn [orb negb].
    destruct (has_level _ acc); [discriminate|]. by intros [= <-].
  - cbn [negb]. rewrite orb_true_r. intros [= <-]. by rewrite app_nil_r.
Qed.

Lemma collect_directories_entries (listing : list string) :
  forall acc catalog,
    collect_directories fs sources acc listing = Ok catalog ->
    catalog = acc ++ omap (catalog_entry fs sources) listing.
Proof.
  induction listing as [|d listing IH]; intros acc catalog H;
    cbn [collect_directories] in H.
  - simplify_eq. by rewrite app_nil_r.
  - destruct (collect_directory fs sources acc d) as [acc'|] eqn:E;
      [|discriminate].
    cbn [bind] in H. rewrite (IH _ _ H).
    rewrite (collect_directory_entry _ _ _ E), <- app_assoc.
    f_equal. cbn [omap list_omap].
    by destruct (catalog_entry fs sources d).
Qed.


Lemma int10_digits (cs : list ascii) :
  forall acc,
    0 <= acc -> forallb isdigit_char cs = true ->
    0 <= fold_left
           (fun acc c => 10 * acc + (Z.of_nat (nat_of_ascii c) - 48)) cs acc.
Proof.
  induction cs as [|c cs IH]; intros acc Ha H; cbn [fold_left]; [done|].
  cbn [forallb] in H. apply andb_true_iff in H as [Hc Hcs].
  apply IH; [|done].
  unfold isdigit_char in Hc. apply andb_true_iff in Hc as [Hlo _].
  apply Nat.leb_le in Hlo. lia.
Qed.

(** A string of digits is the numeral of a number that is not
    negative. *)
Lemma int10_nonneg (s : string) : isdigit s = true -> 0 <= int10 s.
Proof.
  unfold isdigit, int10. intros H. apply andb_true_iff in H as [_ H].
  by apply int10_digits.
Qed.

Lemma catalog_entry_nonneg (d : string) (l : Z) (p : string) :
  catalog_entry fs sources d = Some (l, p) ->
  0 <= l /\ p = path_join sources d.
Proof.
  unfold catalog_entry, reported_level.
  destruct (parse_property_file _ _) as [properties|]; [|discriminate].
  destruct (properties !! "AndroidVersion.ApiLevel") as [v|];
    [|discriminate].
  destruct (isdigit v) eqn:E; [|discriminate].
  intros [= <- <-]. split; [by apply int10_nonneg | reflexivity].
Qed.

End Collected.

(** X13.  The catalog that [collect_android_sources] returns holds, in
    the order of the directory listing, one entry for every
    sub-directory that reports a level, with that level and the path of
    the sub-directory, and nothing else; no level occurs twice in it. *)
Theorem collect_android_sources_catalog
    (fs : filesystem) (base : string) (catalog : list (Z * string)) :
  let sources := path_join base "sources" in
  collect_android_sources fs base = Ok catalog ->
  catalog = omap (catalog_entry fs sources) (fs_listdir fs sources)
  /\ NoDup (catalog.*1).
Proof.
  intros sources H. split.
  - unfold collect_android_sources in H. fold sources in H.
    destruct (negb _); [discriminate|].
    by apply (collect_directories_entries fs sources _ []).
  - unfold collect_android_sources in H. fold sources in H.
    destruct (negb _); [discriminate|].
    eapply collect_directories_NoDup; [exact H | constructor].
Qed.

Lemma collect_android_sources_catalog_witness :
  collect_android_sources (two_directories (Some ["Pkg.Revision=1"])) "sdk"
  = Ok [(21, "sdk/sources/a")]
  /\ [(21, "sdk/sources/a")]
     = omap (catalog_entry (two_directories (Some ["Pkg.Revision=1"]))
                           (path_join "sdk" "sources"))
            (fs_listdir (two_directories (Some ["Pkg.Revision=1"]))
                        (path_join "sdk" "sources"))
  /\ NoDup ([(21, "sdk/sources/a")].*1).
Proof.
  assert (H : collect_android_sources
                (two_directories (Some ["Pkg.Revision=1"])) "sdk"
              = Ok [(21, "sdk/sources/a")]) by reflexivity.
  split; [exact H|].
  exact (collect_android_sources_catalog _ "sdk" _ H).
Defined.



(** X15.  Every level in the catalog is a number that is not negative,
    and its directory is the sub-directory of [sources] that reported
    it. *)
Theorem collect_android_sources_levels
    (fs : filesystem) (base : string) (catalog : list (Z * string))
    (l : Z) (p : string) :
  collect_android_sources fs base = Ok catalog ->
  (l, p) ∈ catalog ->
  0 <= l
  /\ exists d, d ∈ fs_listdir fs (path_join base "sources")
               /\ p = path_join (path_join base "sources") d
               /\ reported_level fs (path_join base "sources") d = Some l.
Proof.
  intros H Hin. unfold collect_android_sources in H.
  destruct (negb _); [discriminate|].
  apply collect_directories_entries in H. cbn [app] in H. subst catalog.
  apply list_elem_of_omap in Hin as (d & Hd & He).
  destruct (catalog_entry_nonneg _ _ _ _ _ He) as [Hl Hp].
  split; [exact Hl|]. exists d. split_and!; try done.
  unfold catalog_entry in He.
  destruct (reported_level _ _ d); by simplify_eq.
Qed.

Lemma collect_android_sources_levels_witness :
  collect_android_sources (two_directories (Some ["Pkg.Revision=1"])) "sdk"
  = Ok [(21, "sdk/sources/a")]
  /\ (21, "sdk/sources/a") ∈ [(21, "sdk/sources/a")]
  /\ 0 <= 21.
Proof.
  assert (H : collect_android_sources
                (two_directories (Some ["Pkg.Revision=1"])) "sdk"
              = Ok [(21, "sdk/sources/a")]) by reflexivity.
  assert (Hin : (21, "sdk/sources/a") ∈ [(21, "sdk/sources/a")]) by left.
  split; [exact H|]. split; [exact Hin|].
  exact (proj1 (collect_android_sources_levels _ "sdk" _ 21 _ H Hin)).
Defined.

(** ** More on the archive packer *)

Section Written.

Local Open Scope list_scope.

(** Writing stops at the first file that cannot be read. *)
Lemma write_members_unreadable
    (pre post : list (string * option (list string))) (t : string) :
  Forall (fun f => snd f <> None) pre ->
  forall out,
    write_members (pre ++ (t, None) :: post) out
    = (out ++ map content pre, Some (IOError t)).
Proof.
  induction 1 as [|[n [d|]] pre Hf _ IH]; intros out; cbn [app write_members].
  - by rewrite app_nil_r.
  - rewrite IH. cbn [map]. by rewrite <- app_assoc.
  - by destruct Hf.
Qed.

Lemma write_members_fails (files : list (string * option (list string)))
    (t : string) :
  In (t, None) files ->
  forall out, snd (write_members files out) <> None.
Proof.
  induction files as [|[n [d|]] files IH]; intros Hin out;
    cbn [write_members].
  - destruct Hin.
  - destruct Hin as [E|Hin]; [discriminate | by apply IH].
  - discriminate.
Qed.

Lemma map_content_filter (files : list (string * option (list string))) :
  map content (filter not_properties files)
  = filter kept (map content files).
Proof.
  induction files as [|f files IH]; [reflexivity|].
  rewrite filter_cons. cbn [map]. rewrite filter_cons.
  destruct (decide (not_properties f)) as [H|H],
    (decide (kept (content f))) as [H'|H'].
  - cbn [map]. f_equal. exact IH.
  - exfalso. apply H'. exact H.
  - exfalso. apply H. exact H'.
  - exact IH.
Qed.

Lemma length_walk (top : node) :
  forall rel, length (walk rel top) = count_files top.
Proof.
  induction top as [d|entries IH] using node_ind'; intros rel;
    [reflexivity|].
  cbn [walk count_files]. rewrite length_app. unfold files_of.
  induction IH as [|[n child] es Hc _ IHes]; [reflexivity|].
  cbn [flat_map map fst snd]. rewrite !length_app.
  unfold list_sum in *. cbn [fold_right].
  cbn [snd] in Hc. destruct child as [d|sub].
  - cbn [length]. lia.
  - rewrite (Hc (path_join rel n)). cbn [length]. lia.
Qed.

(** What both packers write when every file can be read. *)
Lemma package_is_repack_without_properties_aux
    (fs : filesystem) (directory : string) :
  Forall (fun f => snd f <> None) (walk_top fs directory) ->
  fst (package_sdk_source fs directory)
  = map content (filter not_properties (walk_top fs directory))
  /\ fst (repack fs directory) = map content (walk_top fs directory).
Proof.
  intros Hall.
  assert (Hall' : Forall (fun f => snd f <> None)
                         (filter not_properties (walk_top fs directory))).
  { apply List.Forall_forall. intros f Hin.
    apply list_elem_of_In, list_elem_of_filter in Hin as [_ Hin].
    rewrite List.Forall_forall in Hall.
    by apply Hall, list_elem_of_In. }
  unfold package_sdk_source, repack.
  by rewrite !write_members_readable by assumption.
Qed.

End Written.

(** X16.  [repack] stops at the first file of the walk that cannot be
    read: it raises the error of that file and the archive holds the
    files that the walk yields before it.  [package_sdk_source] does
    the same among the files other than the top [source.properties]. *)
Theorem pack_stops_at_unreadable
    (fs : filesystem) (directory t : string)
    (pre post : list (string * option (list string))) :
  walk_top fs directory = (pre ++ (t, None) :: post)%list ->
  (Forall (fun f => snd f <> None) pre ->
   repack fs directory = (map content pre, Some (IOError t)))
  /\ (Forall (fun f => snd f <> None) (filter not_properties pre) ->
      t <> "source.properties" ->
      package_sdk_source fs directory
      = (map content (filter not_properties pre), Some (IOError t))).
Proof.
  intros Hw. split.
  - intros Hpre. unfold repack. rewrite Hw.
    by rewrite write_members_unreadable.
  - intros Hpre Ht. unfold package_sdk_source. rewrite Hw.
    rewrite filter_app, filter_cons_True.
    + by rewrite write_members_unreadable.
    + unfold not_properties. cbn [fst].
      apply Is_true_true, negb_true_iff, String.eqb_neq. exact Ht.
Qed.

Lemma pack_stops_at_unreadable_witness :
  let fs :=
    {| fs_exists := fun _ => true; fs_listdir := fun _ => [];
       fs_open := fun _ => None;
       fs_tree := fun _ =>
         Some (Dir [("a.txt", File (Some ["alpha"]));
                    ("b.txt", File None);
                    ("c.txt", File (Some ["gamma"]))]) |} in
  walk_top fs "d"
  = ([("a.txt", Some ["alpha"])] ++ ("b.txt", None)
       :: [("c.txt", Some ["gamma"])])%list
  /\ repack fs "d" = ([("a.txt", ["alpha"])], Some (IOError "b.txt"))
  /\ package_sdk_source fs "d"
     = ([("a.txt", ["alpha"])], Some (IOError "b.txt")).
Proof.
  intros fs.
  assert (Hw : walk_top fs "d"
               = ([("a.txt", Some ["alpha"])] ++ ("b.txt", None)
                    :: [("c.txt", Some ["gamma"])])%list) by reflexivity.
  destruct (pack_stops_at_unreadable fs "d" "b.txt" _ _ Hw) as [H1 H2].
  split; [exact Hw|]. split.
  - apply H1. repeat constructor. discriminate.
  - apply H2; [|discriminate]. repeat constructor. discriminate.
Defined.

(** X17.  For a tree whose files can all be read, the archive of
    [package_sdk_source] is the archive of [repack] without the member
    [source.properties], in the same order, and neither raises. *)
Theorem package_is_repack_without_properties
    (fs : filesystem) (directory : string) :
  Forall (fun f => snd f <> None) (walk_top fs directory) ->
  fst (package_sdk_source fs directory)
  = filter kept (fst (repack fs directory))
  /\ snd (package_sdk_source fs directory) = None
  /\ snd (repack fs directory) = None.
Proof.
  intros Hall.
  assert (Hall' : Forall (fun f => snd f <> None)
                         (filter not_properties (walk_top fs directory))).
  { apply List.Forall_forall. intros f Hin.
    apply list_elem_of_In, list_elem_of_filter in Hin as [_ Hin].
    rewrite List.Forall_forall in Hall.
    by apply Hall, list_elem_of_In. }
  unfold package_sdk_source, repack.
  rewrite !write_members_readable by assumption.
  cbn [fst snd app]. split_and!; try reflexivity.
  apply map_content_filter.
Qed.

Lemma package_is_repack_without_properties_witness :
  Forall (fun f => snd f <> None) (walk_top two_files "d")
  /\ fst (package_sdk_source two_files "d")
     = filter kept (fst (repack two_files "d")).
Proof.
  assert (H : Forall (fun f => snd f <> None) (walk_top two_files "d")).
  { repeat constructor; discriminate. }
  split; [exact H|].
  exact (proj1 (package_is_repack_without_properties two_files "d" H)).
Defined.

(** X18.  [package_sdk_source] never reads the file that it leaves out:
    when the top [source.properties] is the only file that cannot be
    read it raises nothing, while [repack] raises as soon as the walk
    yields any file that cannot be read. *)
Theorem package_skips_unreadable_properties
    (fs : filesystem) (directory : string) :
  (forall t, In (t, None) (walk_top fs directory) ->
             t = "source.properties") ->
  snd (package_sdk_source fs directory) = None
  /\ ((exists t, In (t, None) (walk_top fs directory)) ->
      snd (repack fs directory) <> None).
Proof.
  intros H. split.
  - unfold package_sdk_source.
    rewrite write_members_readable; [reflexivity|].
    apply List.Forall_forall. intros [t [d|]] Hin; [discriminate|].
    apply list_elem_of_In, list_elem_of_filter in Hin as [Hk Hin].
    apply list_elem_of_In in Hin. rewrite (H t Hin) in Hk.
    by destruct Hk.
  - intros [t Hin]. unfold repack. by eapply write_members_fails.
Qed.

Lemma package_skips_unreadable_properties_witness :
  let fs :=
    {| fs_exists := fun _ => true; fs_listdir := fun _ => [];
       fs_open := fun _ => None;
       fs_tree := fun _ =>
         Some (Dir [("source.properties", File None);
                    ("a.txt", File (Some ["alpha"]))]) |} in
  (forall t, In (t, None) (walk_top fs "d") -> t = "source.properties")
  /\ snd (package_sdk_source fs "d") = None
  /\ snd (repack fs "d") <> None.
Proof.
  intros fs.
  assert (H : forall t, In (t, None) (walk_top fs "d") ->
                        t = "source.properties").
  { intros t [E|[E|[]]]; [by simplify_eq | discriminate]. }
  destruct (package_skips_unreadable_properties fs "d" H) as [H1 H2].
  split; [exact H|]. split; [exact H1|].
  apply H2. exists "source.properties". by left.
Defined.

(** X19.  [repack] writes every regular file below the directory once:
    for a tree whose files can all be read the archive has as many
    members as the tree has regular files, and [package_sdk_source]
    has at most as many. *)
Theorem repack_member_count
    (fs : filesystem) (directory : string) (top : node) :
  fs_tree fs directory = Some top ->
  Forall (fun f => snd f <> None) (walk_top fs directory) ->
  length (fst (repack fs directory)) = count_files top
  /\ (length (fst (package_sdk_source fs directory)) <= count_files top)%nat.
Proof.
  intros Ht Hall.
  destruct (package_is_repack_without_properties_aux fs directory Hall)
    as (Hp & Hr).
  rewrite Hp, Hr. rewrite length_map.
  assert (El : length (walk_top fs directory) = count_files top).
  { unfold walk_top. rewrite Ht. apply length_walk. }
  split; [exact El|].
  rewrite length_map, <- El. apply length_filter.
Qed.

Lemma repack_member_count_witness :
  fs_tree two_files "d"
  = Some (Dir [("a.txt", File (Some ["alpha"]));
               ("sub", Dir [("b.txt", File (Some ["beta"]))])])
  /\ Forall (fun f => snd f <> None) (walk_top two_files "d")
  /\ length (fst (repack two_files "d")) = 2%nat.
Proof.
  assert (H : Forall (fun f => snd f <> None) (walk_top two_files "d")).
  { repeat constructor; discriminate. }
  split; [reflexivity|]. split; [exact H|].
  exact (proj1 (repack_member_count two_files "d" _ eq_refl H)).
Defined.

(** ** More on the template preprocessor *)

Section Markers.

Lemma all_chars_app (P : ascii -> bool) (a b : string) :
  all_chars P (a ++ b) = all_chars P a && all_chars P b.
Proof.
  induction a as [|c a IH]; [reflexivity|].
  rewrite append_cons. cbn [all_chars]. by rewrite IH, andb_assoc.
Qed.

Lemma prefix_nil (s : string) : String.prefix "" s = true.
Proof. by destruct s. Qed.

Lemma index_cons_0 (s1 : string) (b : ascii) (s2 : string) :
  index 0 s1 (String b s2) =
  if String.prefix s1 (String b s2) then Some 0%nat
  else match index 0 s1 s2 with
       | Some n => Some (S n)
       | None => None
       end.
Proof. reflexivity. Qed.

Lemma index_cons_S (n : nat) (s1 : string) (b : ascii) (s2 : string) :
  index (S n) s1 (String b s2) =
  match index n s1 s2 with
  | Some n => Some (S n)
  | None => None
  end.
Proof. reflexivity. Qed.

Lemma prefix_marker (c : ascii) (s : string) :
  not_percent c = true -> String.prefix "%%" (String c s) = false.
Proof.
  intros H. change (String.prefix "%%" (String c s))
    with (match ascii_dec "%" c with
          | left _ => String.prefix "%" s
          | right _ => false
          end).
  destruct (ascii_dec "%" c) as [<-|]; [discriminate | reflexivity].
Qed.

(** A search that starts behind [a] is a search in what follows [a]. *)
Lemma index_app_skip (a : string) :
  forall n s b,
    index (String.length a + n) s (a ++ b) =
    match index n s b with
    | Some i => Some (String.length a + i)%nat
    | None => None
    end.
Proof.
  induction a as [|c a IH]; intros n s b.
  - cbn [String.length Nat.add]. change ("" ++ b) with b.
    by destruct (index n s b).
  - rewrite append_cons. cbn [String.length Nat.add].
    rewrite index_cons_S, IH. by destruct (index n s b).
Qed.

(** The first marker is not in a text without percent signs. *)
Lemma index_marker_app (a : string) :
  all_chars not_percent a = true ->
  forall b,
    index 0 "%%" (a ++ b) =
    match index 0 "%%" b with
    | Some i => Some (String.length a + i)%nat
    | None => None
    end.
Proof.
  induction a as [|c a IH]; intros H b.
  - change ("" ++ b) with b. by destruct (index 0 "%%" b).
  - cbn [all_chars] in H. apply andb_true_iff in H as [Hc Ha].
    rewrite append_cons, index_cons_0, prefix_marker by done.
    rewrite IH by done. by destruct (index 0 "%%" b).
Qed.

Lemma index_marker_none (a : string) :
  all_chars not_percent a = true -> index 0 "%%" a = None.
Proof.
  intros H. rewrite <- (string_app_nil_r a).
  by rewrite index_marker_app.
Qed.

Lemma index_marker_front (s : string) : index 0 "%%" ("%%" ++ s) = Some 0%nat.
Proof.
  change ("%%" ++ s) with (String "%" (String "%" s)).
  rewrite index_cons_0.
  change (String.prefix "%%" (String "%" (String "%" s)))
    with (String.prefix "" s).
  by rewrite prefix_nil.
Qed.

Lemma substring_skip (a : string) :
  forall k m b,
    substring (String.length a + k) m (a ++ b) = substring k m b.
Proof.
  induction a as [|c a IH]; intros k m b; [reflexivity|].
  rewrite append_cons. cbn [String.length Nat.add substring]. apply IH.
Qed.

Lemma substring_prefix (a : string) :
  forall b, substring 0 (String.length a) (a ++ b) = a.
Proof.
  induction a as [|c a IH]; intros b; [by destruct b|].
  rewrite append_cons. cbn [String.length substring]. by rewrite IH.
Qed.

Lemma slice_from_skip (a b : string) :
  slice_from (String.length a) (a ++ b) = b.
Proof.
  unfold slice_from. rewrite string_length_app.
  replace (String.length a + String.length b - String.length a)%nat
    with (String.length b) by lia.
  rewrite <- (Nat.add_0_r (String.length a)) at 1.
  rewrite substring_skip.
  rewrite <- (string_app_nil_r b) at 2.
  apply substring_prefix.
Qed.

(** Where the two markers of [pre%%name%%post] are found. *)
Lemma index_marked (pre name post : string) :
  all_chars not_percent pre = true ->
  all_chars not_percent name = true ->
  index 0 "%%" (marked pre name post) = Some (String.length pre)
  /\ index (String.length pre + 2) "%%" (marked pre name post)
     = Some (String.length pre + 2 + String.length name)%nat.
Proof.
  intros Hpre Hname. unfold marked. split.
  - rewrite index_marker_app, index_marker_front by done.
    f_equal. lia.
  - rewrite index_app_skip.
    change ("%%" ++ name ++ "%%" ++ post)
      with (String "%" (String "%" (name ++ "%%" ++ post))).
    rewrite !index_cons_S, index_marker_app, index_marker_front by done.
    f_equal. lia.
Qed.

(** One pass over [pre%%name%%post] when [name] is a variable. *)
Lemma substitute_once_marked (variables : gmap string pyval)
    (pre name post : string) (v : pyval) :
  all_chars not_percent pre = true ->
  all_chars not_percent name = true ->
  variables !! name = Some v ->
  substitute_once variables (marked pre name post)
  = Again (pre ++ str v ++ post).
Proof.
  intros Hpre Hname Hv. unfold substitute_once.
  destruct (index_marked pre name post Hpre Hname) as [-> ->].
  replace (String.length pre + 2 + String.length name
           - (String.length pre + 2))%nat
    with (String.length name) by lia.
  assert (Evar : substring (String.length pre + 2) (String.length name)
                           (marked pre name post) = name).
  { unfold marked. rewrite substring_skip.
    change ("%%" ++ name ++ "%%" ++ post)
      with (String "%" (String "%" (name ++ "%%" ++ post))).
    cbn [substring]. apply substring_prefix. }
  rewrite Evar, Hv.
  assert (Epre : substring 0 (String.length pre) (marked pre name post)
                 = pre) by apply substring_prefix.
  assert (Epost : slice_from (String.length pre + 2 + String.length name + 2)
                             (marked pre name post) = post).
  { unfold marked.
    replace (pre ++ "%%" ++ name ++ "%%" ++ post)
      with ((pre ++ "%%" ++ name ++ "%%") ++ post)
      by (by rewrite !string_app_assoc).
    replace (String.length pre + 2 + String.length name + 2)%nat
      with (String.length (pre ++ "%%" ++ name ++ "%%")).
    - apply slice_from_skip.
    - rewrite !string_length_app. cbn [String.length]. lia. }
  by rewrite Epre, Epost.
Qed.

(** A line without a marker leaves the loop at once. *)
Lemma substitute_no_marker (variables : gmap string pyval) (line : string)
    (fuel : nat) :
  index 0 "%%" line = None ->
  substitute (S fuel) variables line = Some (Ok line).
Proof. intros H. cbn [substitute]. unfold substitute_once. by rewrite H. Qed.

End Markers.

(** X20.  A line [pre%%NAME%%post] without any other percent sign,
    where [NAME] is a variable whose string has no percent sign, is
    rendered in two passes of the loop as [pre], the string of the
    value and [post]. *)
Theorem substitute_resolved_marker (variables : gmap string pyval)
    (pre name post : string) (v : pyval) (fuel : nat) :
  all_chars not_percent pre = true ->
  all_chars not_percent name = true ->
  all_chars not_percent post = true ->
  all_chars not_percent (str v) = true ->
  variables !! name = Some v ->
  substitute (S (S fuel)) variables (marked pre name post)
  = Some (Ok (pre ++ str v ++ post)).
Proof.
  intros Hpre Hname Hpost Hv Hvar.
  cbn [substitute].
  rewrite (substitute_once_marked variables pre name post v) by done.
  change (substitute (S fuel) variables (pre ++ str v ++ post)
          = Some (Ok (pre ++ str v ++ post))).
  apply substitute_no_marker, index_marker_none.
  rewrite !all_chars_app, Hpre, Hv, Hpost. reflexivity.
Qed.

Lemma substitute_resolved_marker_witness :
  all_chars not_percent "Copyright " = true
  /\ all_chars not_percent "YEAR" = true
  /\ all_chars not_percent " Android" = true
  /\ all_chars not_percent (str (PyInt 2013)) = true
  /\ ({[ "YEAR" := PyInt 2013 ]} : gmap string pyval) !! "YEAR"
     = Some (PyInt 2013)
  /\ substitute 2 {[ "YEAR" := PyInt 2013 ]}
       (marked "Copyright " "YEAR" " Android")
     = Some (Ok ("Copyright " ++ str (PyInt 2013) ++ " Android")).
Proof.
  split; [reflexivity|]. split; [reflexivity|]. split; [reflexivity|].
  split; [reflexivity|]. split; [reflexivity|].
  exact (substitute_resolved_marker {[ "YEAR" := PyInt 2013 ]}
           "Copyright " "YEAR" " Android" (PyInt 2013) 0
           eq_refl eq_refl eq_refl eq_refl eq_refl).
Defined.

(** X21.  A file in which no line holds [%%] is returned as it is, the
    lines one after the other, whatever the variables are. *)
Theorem preprocess_without_markers (fs : filesystem) (source_file : string)
    (variables : gmap string pyval) (lines : list string) (fuel : nat) :
  fs_open fs source_file = Some lines ->
  Forall (fun line => index 0 "%%" line = None) lines ->
  preprocess (S fuel) fs source_file variables
  = Some (Ok (join_lines lines)).
Proof.
  intros Ho Hall. unfold preprocess. rewrite Ho.
  assert (H : forall out,
             preprocess_lines (S fuel) variables lines out
             = Some (Ok (out ++ join_lines lines))).
  { clear Ho. induction Hall as [|line ls Hl _ IH]; intros out.
    - cbn [preprocess_lines join_lines fold_right].
      by rewrite string_app_nil_r.
    - cbn [preprocess_lines].
      rewrite (substitute_no_marker variables line fuel Hl).
      rewrite IH. unfold join_lines. cbn [fold_right].
      rewrite string_app_assoc. reflexivity. }
  exact (H "").
Qed.

Lemma preprocess_without_markers_witness :
  fs_open four_sdks "about.html" = Some ["asset"]
  /\ Forall (fun line => index 0 "%%" line = None) ["asset"]
  /\ preprocess 1 four_sdks "about.html" ∅ = Some (Ok (join_lines ["asset"])).
Proof.
  assert (H : Forall (fun line => index 0 "%%" line = None) ["asset"])
    by (repeat constructor).
  split; [reflexivity|]. split; [exact H|].
  exact (preprocess_without_markers four_sdks "about.html" ∅ ["asset"] 0
           eq_refl H).
Defined.

(** X22.  A line with a single [%%] raises the [ValueError] of
    [str.index]: the closing marker is searched for and not found. *)
Theorem substitute_unterminated_marker (variables : gmap string pyval)
    (pre post : string) (fuel : nat) :
  all_chars not_percent pre = true ->
  all_chars not_percent post = true ->
  substitute (S fuel) variables (pre ++ "%%" ++ post)
  = Some (Raise (ValueError "substring not found")).
Proof.
  intros Hpre Hpost. cbn [substitute]. unfold substitute_once.
  rewrite index_marker_app, index_marker_front by done.
  rewrite Nat.add_0_r, index_app_skip.
  change ("%%" ++ post) with (String "%" (String "%" post)).
  rewrite !index_cons_S, index_marker_none by done.
  reflexivity.
Qed.

Lemma substitute_unterminated_marker_witness :
  all_chars not_percent "100" = true
  /\ all_chars not_percent " done" = true
  /\ substitute 1 ∅ ("100" ++ "%%" ++ " done")
     = Some (Raise (ValueError "substring not found")).
Proof.
  split; [reflexivity|]. split; [reflexivity|].
  exact (substitute_unterminated_marker ∅ "100" " done" 0 eq_refl eq_refl).
Defined.

(** ** More on the thread pool and the assembler *)

Section Bounded.

Variable fs : filesystem.



End Bounded.


(** X24.  When the [with] block of the executor ends, for every
    positive number of workers and every schedule, no task is queued or
    running; [sdk_archives] holds exactly the levels whose packaging
    raised nothing; no two levels share a temporary file; every task,
    also a failed one, has left one temporary file, and that file holds
    what the packaging of its directory wrote. *)
Theorem pool_after_barrier
    (fs : filesystem) (sdks : list (Z * string)) (workers : nat)
    (schedule : list nat) :
  NoDup (sdks.*1) ->
  (0 < workers)%nat ->
  let st := pack_all fs workers schedule sdks in
  queue st = [] /\ running st = []
  /\ (forall l t,
        sdk_archives st !! l = Some t <->
        exists p, sdks !! t = Some (l, p)
                  /\ snd (package_sdk_source fs p) = None)
  /\ (forall l l' t,
        sdk_archives st !! l = Some t -> sdk_archives st !! l' = Some t ->
        l = l')
  /\ (forall t, is_Some (temp_files st !! t) <-> (t < length sdks)%nat)
  /\ (forall t l p,
        sdks !! t = Some (l, p) ->
        temp_files st !! t = Some (fst (package_sdk_source fs p))).
Proof.
  intros Hn Hw st.
  destruct (pack_all_quiescent fs sdks workers schedule Hw) as [Hq Hr].
  destruct (pack_all_done fs sdks Hn workers schedule Hw)
    as (Ha & Ht & Hf).
  fold st in Hq, Hr, Ha, Ht, Hf.
  split_and!; try done.
  - intros l t. rewrite Ha. by setoid_rewrite packs_true.
  - by apply (archives_injective fs sdks Hn workers schedule Hw).
  - intros t. split.
    + intros [ms Hms]. destruct (Nat.lt_ge_cases t (length sdks)); [done|].
      by rewrite Hf in Hms.
    + intros Hlt. destruct (lookup_lt_is_Some_2 sdks t Hlt) as [[l p] E].
      rewrite (Ht t l p E). eauto.
Qed.

Lemma pool_after_barrier_witness :
  let sdks := [(3, "d3"); (2, "d2")] in
  NoDup (sdks.*1)
  /\ (0 < 2)%nat
  /\ queue (pack_all four_sdks 2 [1; 1; 0]%nat sdks) = []
  /\ running (pack_all four_sdks 2 [1; 1; 0]%nat sdks) = [].
Proof.
  intros sdks.
  assert (Hn : NoDup (sdks.*1)).
  { apply (bool_decide_unpack _). vm_compute. exact I. }
  assert (Hw : (0 < 2)%nat) by lia.
  destruct (pool_after_barrier four_sdks sdks 2 [1; 1; 0]%nat Hn Hw)
    as (H1 & H2 & _).
  split_and!; assumption.
Defined.

(** X25.  When a static asset cannot be written, [generate_plugins]
    raises the exception of that asset; the archive is closed with the
    static members written before it and without any member of a level,
    and nothing is unlinked: the temporary file of every task is still
    on disk. *)
Theorem assets_failure_leaves_temporaries
    (fs : filesystem) (render : string -> result string) (base : string)
    (sdks : list (Z * string)) (threads : Z) (schedule : list nat)
    (e : exn) :
  NoDup (sdks.*1) ->
  0 < threads ->
  fst (assets_written fs render base) = Raise e ->
  let o := generate_plugins fs render base sdks threads schedule in
  out_result o = Raise e
  /\ out_archive o = Some (static_entries fs render base)
  /\ (forall t l p,
        sdks !! t = Some (l, p) ->
        out_temp o !! t = Some (fst (package_sdk_source fs p))).
Proof.
  intros Hn Ht Ha o. unfold o.
  rewrite (generate_plugins_assets_failure fs render base sdks threads
             schedule e Ht Ha).
  cbn [out_result out_archive out_temp]. split_and!; try reflexivity.
  intros t l p E.
  pose proof (pack_all_done fs sdks Hn (Z.to_nat threads) schedule
                ltac:(lia)) as Hd.
  cbv zeta in Hd. destruct Hd as (_ & Hd & _).
  exact (Hd t l p E).
Qed.

Lemma assets_failure_leaves_temporaries_witness :
  let sdks := [(3, "d3"); (1, "d1")] in
  let failing (path : string) : result string :=
    Raise (ValueError "substring not found") in
  NoDup (sdks.*1)
  /\ fst (assets_written four_sdks failing "base")
     = Raise (ValueError "substring not found")
  /\ out_result (generate_plugins four_sdks failing "base" sdks 2 [])
     = Raise (ValueError "substring not found").
Proof.
  intros sdks failing.
  assert (Hn : NoDup (sdks.*1)).
  { apply (bool_decide_unpack _). vm_compute. exact I. }
  assert (Ha : fst (assets_written four_sdks failing "base")
               = Raise (ValueError "substring not found")) by reflexivity.
  split; [exact Hn|]. split; [exact Ha|].
  exact (proj1 (assets_failure_leaves_temporaries four_sdks failing "base"
                  sdks 2 [] _ Hn ltac:(reflexivity) Ha)).
Defined.

(** X26.  When all static assets are written, the archive starts with
    seven members of fixed names in a fixed order, the icon being
    written twice, at the top and under [icons]. *)
Theorem static_members_names
    (fs : filesystem) (render : string -> result string) (base : string) :
  fst (assets_written fs render base) = Ok tt ->
  fst <$> static_entries fs render base = static_names.
Proof.
  unfold static_entries, assets_written, write_assets, and_then,
    zip_write, zip_writestr.
  intros H.
  repeat (match type of H with
          | context [fs_open fs ?p] =>
              destruct (fs_open fs p); [|discriminate H]
          | context [render ?p] =>
              destruct (render p); [|discriminate H]
          end).
  reflexivity.
Qed.

Lemma static_members_names_witness :
  fst (assets_written four_sdks plain_render "base") = Ok tt
  /\ fst <$> static_entries four_sdks plain_render "base" = static_names.
Proof.
  split; [reflexivity|].
  exact (static_members_names four_sdks plain_render "base" eq_refl).
Defined.

(** X27.  The thread count of [main]: no option and the option 0 give
    the number of processors.  With a positive number of processors,
    [generate_plugins] called with that count leaves no archive exactly
    when the option is negative, and then it has raised the
    [ValueError] of the executor and created no temporary file. *)
Theorem main_threads_negative
    (fs : filesystem) (render : string -> result string) (base : string)
    (sdks : list (Z * string)) (schedule : list nat)
    (option : option Z) (cpu_count : Z) :
  0 < cpu_count ->
  let threads := main_threads option cpu_count in
  let o := generate_plugins fs render base sdks threads schedule in
  (option = None \/ option = Some 0 -> threads = cpu_count)
  /\ (out_archive o = None <-> exists t, option = Some t /\ t < 0)
  /\ (out_archive o = None ->
      out_result o = Raise (ValueError "max_workers must be greater than 0")
      /\ out_temp o = ∅).
Proof.
  intros Hc threads o. split_and!.
  - intros [->| ->]; reflexivity.
  - unfold o, generate_plugins, threads, main_threads.
    destruct option as [t|].
    + destruct (Z.eqb_spec t 0) as [->|Hne].
      * destruct (Z.leb_spec cpu_count 0); [lia|].
        destruct (and_then _ _ _). cbn [out_archive].
        split; [discriminate|]. intros (t & [= <-] & Hlt). lia.
      * destruct (Z.leb_spec t 0).
        -- cbn [out_archive]. split; [|done].
           intros _. exists t. split; [done | lia].
        -- destruct (and_then _ _ _). cbn [out_archive].
           split; [discriminate|]. intros (t' & [= <-] & Hlt). lia.
    + destruct (Z.leb_spec cpu_count 0); [lia|].
      destruct (and_then _ _ _). cbn [out_archive].
      split; [discriminate|]. intros (t & Hn & _). discriminate.
  - unfold o, generate_plugins.
    destruct (Z.leb_spec threads 0); [done|].
    destruct (and_then _ _ _). cbn [out_archive]. discriminate.
Qed.

Lemma main_threads_negative_witness :
  0 < 4
  /\ main_threads None 4 = 4
  /\ out_archive
       (generate_plugins four_sdks plain_render "base" [(1, "d1")]
          (main_threads (Some (-2)) 4) [])
     = None.
Proof.
  assert (Hc : 0 < 4) by lia.
  destruct (main_threads_negative four_sdks plain_render "base"
              [(1, "d1")] [] None 4 Hc) as (H1 & _).
  destruct (main_threads_negative four_sdks plain_render "base"
              [(1, "d1")] [] (Some (-2)) 4 Hc) as (_ & H2 & _).
  split; [exact Hc|]. split; [apply H1; by left|].
  apply H2. exists (-2). split; [reflexivity | lia].
Defined.



(** X29.  [collect_android_sources] and [generate_plugins] compose: a
    catalog that the first returns can be handed to the second as it
    is; when the assets are written and every collected directory is
    packaged, the run returns normally, the archive holds the static
    members and then one member per collected level in ascending
    order, and no temporary file is left. *)
Theorem collected_catalog_assembles
    (fs : filesystem) (render : string -> result string)
    (sdk_base base : string) (sdks : list (Z * string)) (threads : Z)
    (schedule : list nat) :
  collect_android_sources fs sdk_base = Ok sdks ->
  0 < threads ->
  fst (assets_written fs render base) = Ok tt ->
  (forall l p, (l, p) ∈ sdks -> snd (package_sdk_source fs p) = None) ->
  let o := generate_plugins fs render base sdks threads schedule in
  out_result o = Ok tt
  /\ out_archive o
     = Some (static_entries fs render base
             ++ (level_entry fs sdks <$> sorted_levels sdks))%list
  /\ length (sorted_levels sdks) = length sdks
  /\ out_temp o = ∅.
Proof.
  intros Hc Ht Ha Hall o.
  assert (Hn : NoDup (sdks.*1))
    by (by eapply collect_android_sources_NoDup).
  unfold o.
  rewrite (generate_plugins_all_packed fs render base sdks Hn threads Ht
             schedule Ha Hall).
  cbn [out_result out_archive out_temp]. split_and!; try reflexivity.
  by rewrite sorted_levels_perm, length_fmap.
Qed.

Lemma collected_catalog_assembles_witness :
  let fs :=
    {| fs_exists := fun _ => true;
       fs_listdir := fun _ => ["a"];
       fs_open := fun p =>
         if String.eqb p "sdk/sources/a/source.properties"
         then Some ["AndroidVersion.ApiLevel=21"]
         else Some ["asset"];
       fs_tree := fun p =>
         if String.eqb p "sdk/sources/a"
         then Some (Dir [("source.properties", File None);
                         ("A.java", File (Some ["class A {}"]))])
         else None |} in
  collect_android_sources fs "sdk" = Ok [(21, "sdk/sources/a")]
  /\ fst (assets_written fs plain_render "base") = Ok tt
  /\ out_result
       (generate_plugins fs plain_render "base" [(21, "sdk/sources/a")] 3 [])
     = Ok tt.
Proof.
  intros fs.
  assert (Hc : collect_android_sources fs "sdk" = Ok [(21, "sdk/sources/a")]).
  { vm_compute. reflexivity. }
  assert (Ha : fst (assets_written fs plain_render "base") = Ok tt).
  { vm_compute. reflexivity. }
  assert (Hall : forall l p, (l, p) ∈ [(21, "sdk/sources/a")] ->
                   snd (package_sdk_source fs p) = None).
  { intros l p H. apply list_elem_of_singleton in H.
    injection H as -> ->. vm_compute. reflexivity. }
  split; [exact Hc|]. split; [exact Ha|].
  exact (proj1 (collected_catalog_assembles fs plain_render "sdk" "base"
                  [(21, "sdk/sources/a")] 3 [] Hc ltac:(reflexivity) Ha Hall)).
Defined.
